(** * Vibration analyser (M5StickC Plus): record store, clock setting,
      statistics, sampling-rate measurement and spectrogram range

    A shallow embedding of [VibrationAnalyzer_v1.7_RTC.ino].  The global
    variables of the sketch become fields of one state record that every
    operation takes and returns; the LittleFS flash file system is a finite
    map from path names to file contents (bytes); the serial port is the
    list of the strings printed so far.  The type [float] is a parameter of
    the development: [FloatOps] lists the operations the sketch uses on it
    and [ArduinoFFT] the calls it makes into the arduinoFFT library.  The
    instance given after the model is IEEE-754 binary32 on bit patterns,
    what the ESP32 computes with. *)

From Stdlib Require Import ZArith QArith Qpower Lqa Lia List Ascii String DecimalString.
From Stdlib Require Import Floats.SpecFloat.
From stdpp Require Import base option list gmap strings.

Local Open Scope Z_scope.

(** ** Compile-time constants of the sketch *)

Definition SAMPLES : Z := 1024.
Definition TTNS : Z := 4.
Definition MAX_RECORDS : Z := 30.
Definition RECORDS_DIR : string := "/records".
Definition METADATA_FILE : string := "/meta.dat".
Definition SEG_LEN : Z := 128.
Definition SEG_OVERLAP_PCT : Z := 50.
Definition SEG_MAX : Z := 17.
Definition SPEC_BINS : Z := SEG_LEN / 2.

(** ** Bytes and fixed-width integers

    The ESP32 is little-endian; [int] and [long] are 32 bits wide. *)

Abbreviation byte := Byte.byte.

Definition byte_of_Z (z : Z) : byte :=
  match Byte.of_N (Z.to_N (z mod 256)) with
  | Some b => b
  | None => Byte.x00
  end.

Definition Z_of_byte (b : byte) : Z := Z.of_N (Byte.to_N b).

(** [le_bytes n z]: the [n] low-order bytes of [z], least significant
    first (the object representation of an [n]-byte integer; a negative
    [z] gives its two's complement). *)
Fixpoint le_bytes (n : nat) (z : Z) : list byte :=
  match n with
  | O => []
  | S n' => byte_of_Z z :: le_bytes n' (z / 256)
  end.

(** The unsigned value of a little-endian byte string. *)
Fixpoint le_value (bs : list byte) : Z :=
  match bs with
  | [] => 0
  | b :: bs' => Z_of_byte b + 256 * le_value bs'
  end.

(** Conversion to an unsigned integer type of [w] bits. *)
Definition to_unsigned (w : Z) (z : Z) : Z := z mod 2 ^ w.

(** Conversion to a signed (two's complement) integer type of [w] bits. *)
Definition to_signed (w : Z) (z : Z) : Z :=
  (z + 2 ^ (w - 1)) mod 2 ^ w - 2 ^ (w - 1).

(** C's [%] on [int]: the remainder has the sign of the dividend. *)
Definition c_rem (a b : Z) : Z := Z.rem a b.

(** [for (int i = lo; i < hi; i++) body] over a loop state of type [A]. *)
Definition for_loop {A : Type} (lo hi : Z) (body : Z -> A -> A) (a : A) : A :=
  fold_left (fun acc i => body i acc) (seqZ lo (hi - lo)) a.

(** [sub_bytes off len bs]: the [len] bytes of [bs] from offset [off]. *)
Definition sub_bytes (off len : nat) (bs : list byte) : list byte :=
  take len (drop off bs).

(** ** Files

    A file opened for writing accumulates the bytes of every [write]; a
    file opened for reading is the list of bytes not yet consumed.
    [file_read n obj f] is [file.read] of [n] bytes into an object: the first [n]
    bytes of [f] (fewer if the file ends) overwrite the beginning of the
    object representation [obj]; the rest of the object keeps its bytes. *)

Definition file_write (bs : list byte) (f : list byte) : list byte := f ++ bs.

Definition file_read (n : nat) (obj : list byte) (f : list byte)
  : list byte * list byte :=
  (take n f ++ drop (length (take n f)) obj, drop n f).

(** ** Text formatting ([snprintf], [Print]) and Arduino [String] *)

Definition CRLF : string := String "013" (String "010" EmptyString).

Definition string_of_Z (z : Z) : string := NilZero.string_of_int (Z.to_int z).

(** [zero_pad w s]: [s] preceded by zeros up to [w] characters. *)
Definition zero_pad (w : nat) (s : string) : string :=
  string_of_list_ascii (replicate (w - String.length s) "0"%char) +:+ s.

(** [printf]'s [%0wd]. *)
Definition fmt_0d (w : nat) (z : Z) : string :=
  if z <? 0 then "-" +:+ zero_pad (w - 1) (string_of_Z (- z))
  else zero_pad w (string_of_Z z).

(** [snprintf(buf, size, ...)] keeps at most [size - 1] characters. *)
Definition snprintf (size : nat) (s : string) : string :=
  String.substring 0 (size - 1) s.

(** Leading [isspace] characters removed. *)
Fixpoint skip_space (l : list ascii) : list ascii :=
  match l with
  | c :: l' => if Ascii.is_space c then skip_space l' else l
  | [] => []
  end.

(** [String::trim]: leading and trailing [isspace] characters removed. *)
Definition String_trim (s : string) : string :=
  string_of_list_ascii
    (rev (skip_space (rev (skip_space (list_ascii_of_string s))))).

(** [String::substring(from, to)]: characters [from .. to-1]; the bounds
    are swapped when out of order and [to] is cut at the length. *)
Definition String_substring (from to : nat) (s : string) : string :=
  let '(from, to) := if (to <? from)%nat then (to, from) else (from, to) in
  if (String.length s <=? from)%nat then EmptyString
  else
    let to := if (String.length s <? to)%nat then String.length s else to in
    String.substring from (to - from) s.

(** [atol], which [String::toInt] calls: white space, an optional sign,
    then decimal digits up to the first other character. *)
Fixpoint atol_digits (acc : Z) (l : list ascii) : Z :=
  match l with
  | c :: l' =>
      match Ascii.is_nat c with
      | Some d => atol_digits (10 * acc + Z.of_nat d) l'
      | None => acc
      end
  | [] => acc
  end.

Definition atol (l : list ascii) : Z :=
  match skip_space l with
  | "-"%char :: l' => - atol_digits 0 l'
  | "+"%char :: l' => atol_digits 0 l'
  | l' => atol_digits 0 l'
  end.

Definition String_toInt (s : string) : Z := atol (list_ascii_of_string s).

(** ** Floating point and the FFT library, as interfaces *)

Class FloatOps (float : Type) := {
  (** a floating literal of the source text, such as [9999.0f] *)
  flit : Q -> float;
  (** [(float) i] for an [int] or [long] *)
  float_of_int : Z -> float;
  fadd : float -> float -> float;
  fsub : float -> float -> float;
  fmul : float -> float -> float;
  fdiv : float -> float -> float;
  (** [a < b]; the source's [a > b] is [flt b a] *)
  flt : float -> float -> bool;
  sqrtf : float -> float;
  log10f : float -> float;
  (** the object representation, [sizeof(float)] bytes *)
  float_bytes : float -> list byte;
  bytes_float : list byte -> float;
  (** [Print::print(double, digits)] *)
  print_float : float -> nat -> string
}.

Class ArduinoFFT (float : Type) := {
  (** [dcRemoval(vData, n)] *)
  FFT_dcRemoval : list float -> list float;
  (** [windowing(vData, n, FFT_WIN_TYP_HAMMING, FFT_FORWARD)] *)
  FFT_windowing : list float -> list float;
  (** [compute(vReal, vImag, n, FFT_FORWARD)] *)
  FFT_compute : list float -> list float -> list float * list float;
  (** [complexToMagnitude(vReal, vImag, n)]: the new [vReal] *)
  FFT_complexToMagnitude : list float -> list float -> list float
}.

(** The object representation of a [float] is four bytes from which the
    value is read back unchanged. *)
Class FloatRepr (float : Type) `{FloatOps float} := {
  length_float_bytes : forall f : float, length (float_bytes f) = 4%nat;
  bytes_float_bytes : forall f : float, bytes_float (float_bytes f) = f
}.

(** ** Data of the sketch *)

(** [struct RecordDateTime]: [uint16_t year] and five [uint8_t] fields. *)
Record RecordDateTime := {
  year : Z; month : Z; day : Z; hour : Z; minute : Z; second : Z
}.

(** The "storage state variables". *)
Record Storage := {
  storedRecordCount : Z;
  currentViewRecord : Z;
  oldestRecordIndex : Z;
  newestRecordIndex : Z;
  storageReady : bool
}.

(** What the environment decides during a call: the value of [millis()]
    and whether [LittleFS.open(path, "w")] yields a usable file.  A file
    that was opened is written completely. *)
Record Env := {
  millis : Z;
  can_write : string -> bool
}.

Definition set_storedRecordCount (v : Z) (st : Storage) : Storage :=
  {| storedRecordCount := v; currentViewRecord := currentViewRecord st;
     oldestRecordIndex := oldestRecordIndex st;
     newestRecordIndex := newestRecordIndex st; storageReady := storageReady st |}.

Definition set_currentViewRecord (v : Z) (st : Storage) : Storage :=
  {| storedRecordCount := storedRecordCount st; currentViewRecord := v;
     oldestRecordIndex := oldestRecordIndex st;
     newestRecordIndex := newestRecordIndex st; storageReady := storageReady st |}.

Definition set_oldestRecordIndex (v : Z) (st : Storage) : Storage :=
  {| storedRecordCount := storedRecordCount st;
     currentViewRecord := currentViewRecord st; oldestRecordIndex := v;
     newestRecordIndex := newestRecordIndex st; storageReady := storageReady st |}.

Definition set_newestRecordIndex (v : Z) (st : Storage) : Storage :=
  {| storedRecordCount := storedRecordCount st;
     currentViewRecord := currentViewRecord st;
     oldestRecordIndex := oldestRecordIndex st;
     newestRecordIndex := v; storageReady := storageReady st |}.

(** [snprintf(buf, 32, "%04d-%02d-%02d %02d:%02d:%02d", ...)], the text of
    [printDateTime] and [formatDateTime]. *)
Definition formatDateTime (dt : RecordDateTime) : string :=
  snprintf 32
    (fmt_0d 4 (year dt) +:+ "-" +:+ fmt_0d 2 (month dt) +:+ "-" +:+
     fmt_0d 2 (day dt) +:+ " " +:+ fmt_0d 2 (hour dt) +:+ ":" +:+
     fmt_0d 2 (minute dt) +:+ ":" +:+ fmt_0d 2 (second dt)).

(** [snprintf(filename, 32, "%s/rec%03d.bin", RECORDS_DIR, index)]. *)
Definition record_filename (index : Z) : string :=
  snprintf 32 (RECORDS_DIR +:+ "/rec" +:+ fmt_0d 3 index +:+ ".bin").

(** The object representation of [struct RecordDateTime]: seven bytes of
    fields and one byte of tail padding (alignment 2), written as zero. *)
Definition RecordDateTime_bytes (dt : RecordDateTime) : list byte :=
  le_bytes 2 (year dt) ++ le_bytes 1 (month dt) ++ le_bytes 1 (day dt) ++
  le_bytes 1 (hour dt) ++ le_bytes 1 (minute dt) ++ le_bytes 1 (second dt) ++
  [Byte.x00].

Definition RecordDateTime_of_bytes (bs : list byte) : RecordDateTime :=
  {| year := le_value (sub_bytes 0 2 bs);
     month := le_value (sub_bytes 2 1 bs);
     day := le_value (sub_bytes 3 1 bs);
     hour := le_value (sub_bytes 4 1 bs);
     minute := le_value (sub_bytes 5 1 bs);
     second := le_value (sub_bytes 6 1 bs) |}.

Section Model.
Context {float : Type} `{!FloatOps float} `{!ArduinoFFT float}.

(** [a[i]] on a [float] array. *)
Definition aget (a : list float) (i : Z) : float :=
  nth (Z.to_nat i) a (flit 0).

(** Three values, for the X, Y and Z axes. *)
Definition V3 : Type := float * float * float.
Definition vX (v : V3) : float := v.1.1.
Definition vY (v : V3) : float := v.1.2.
Definition vZ (v : V3) : float := v.2.
Definition setX (x : float) (v : V3) : V3 := (x, vY v, vZ v).
Definition setY (y : float) (v : V3) : V3 := (vX v, y, vZ v).
Definition setZ (z : float) (v : V3) : V3 := (vX v, vY v, z).

(** [struct RecordMeta]; each [V3] stands for three consecutive [float]
    fields ([peakX, peakY, peakZ], [maxX, maxY, maxZ], ...). *)
Record RecordMeta := {
  timestamp : Z;
  rtcTime : RecordDateTime;
  samplingFreq : float;
  meta_peak : V3;
  meta_max : V3;
  meta_min : V3;
  meta_mean : V3;
  meta_sd : V3
}.

Definition set_meta_max (v : V3) (m : RecordMeta) : RecordMeta :=
  {| timestamp := timestamp m; rtcTime := rtcTime m; samplingFreq := samplingFreq m;
     meta_peak := meta_peak m; meta_max := v; meta_min := meta_min m;
     meta_mean := meta_mean m; meta_sd := meta_sd m |}.

Definition set_meta_min (v : V3) (m : RecordMeta) : RecordMeta :=
  {| timestamp := timestamp m; rtcTime := rtcTime m; samplingFreq := samplingFreq m;
     meta_peak := meta_peak m; meta_max := meta_max m; meta_min := v;
     meta_mean := meta_mean m; meta_sd := meta_sd m |}.

Definition set_meta_mean (v : V3) (m : RecordMeta) : RecordMeta :=
  {| timestamp := timestamp m; rtcTime := rtcTime m; samplingFreq := samplingFreq m;
     meta_peak := meta_peak m; meta_max := meta_max m; meta_min := meta_min m;
     meta_mean := v; meta_sd := meta_sd m |}.

Definition set_meta_sd (v : V3) (m : RecordMeta) : RecordMeta :=
  {| timestamp := timestamp m; rtcTime := rtcTime m; samplingFreq := samplingFreq m;
     meta_peak := meta_peak m; meta_max := meta_max m; meta_min := meta_min m;
     meta_mean := meta_mean m; meta_sd := v |}.

(** The data of the capture being shown: what an acquisition produces and
    what a record file holds.  [samplingFrequency], [xM], [yM] and [zM]
    are declared [double] but only ever assigned [float] values
    ([1.0f / dts], [majorPeak] of an [ArduinoFFT<float>], fields of a
    [RecordMeta]), so they are kept as [float]. *)
Record Live := {
  currentRecordTime : RecordDateTime;
  samplingFrequency : float;
  xM : float;
  yM : float;
  zM : float;
  accXvec : list float;
  accYvec : list float;
  accZvec : list float;
  vRealX : list float;
  vRealY : list float;
  vRealZ : list float
}.

Definition set_currentRecordTime (dt : RecordDateTime) (l : Live) : Live :=
  {| currentRecordTime := dt; samplingFrequency := samplingFrequency l;
     xM := xM l; yM := yM l; zM := zM l;
     accXvec := accXvec l; accYvec := accYvec l; accZvec := accZvec l;
     vRealX := vRealX l; vRealY := vRealY l; vRealZ := vRealZ l |}.

(** The arrays [maxV], [meanV], [sdV] and [minV]. *)
Record Stats := {
  maxV : V3;
  meanV : V3;
  sdV : V3;
  minV : V3
}.

(** The spectrogram globals; [specMag] is [SEG_MAX] rows of [SPEC_BINS]. *)
Record Spectro := {
  specMag : list (list float);
  specSegments : Z;
  specLogMin : float;
  specLogMax : float
}.

Definition set_specMag (m : list (list float)) (sp : Spectro) : Spectro :=
  {| specMag := m; specSegments := specSegments sp;
     specLogMin := specLogMin sp; specLogMax := specLogMax sp |}.

Definition set_specSegments (n : Z) (sp : Spectro) : Spectro :=
  {| specMag := specMag sp; specSegments := n;
     specLogMin := specLogMin sp; specLogMax := specLogMax sp |}.

Definition set_specLogMin (v : float) (sp : Spectro) : Spectro :=
  {| specMag := specMag sp; specSegments := specSegments sp;
     specLogMin := v; specLogMax := specLogMax sp |}.

Definition set_specLogMax (v : float) (sp : Spectro) : Spectro :=
  {| specMag := specMag sp; specSegments := specSegments sp;
     specLogMin := specLogMin sp; specLogMax := v |}.

(** The whole state: the globals, the flash file system, the RTC chip and
    the text sent to the serial port. *)
Record State := {
  storage : Storage;
  live : Live;
  stats : Stats;
  spectro : Spectro;
  LittleFS : gmap string (list byte);
  Rtc : RecordDateTime;
  Serial : list string
}.

Definition set_storage (v : Storage) (s : State) : State :=
  {| storage := v; live := live s; stats := stats s; spectro := spectro s;
     LittleFS := LittleFS s; Rtc := Rtc s; Serial := Serial s |}.

Definition set_live (v : Live) (s : State) : State :=
  {| storage := storage s; live := v; stats := stats s; spectro := spectro s;
     LittleFS := LittleFS s; Rtc := Rtc s; Serial := Serial s |}.

Definition set_stats (v : Stats) (s : State) : State :=
  {| storage := storage s; live := live s; stats := v; spectro := spectro s;
     LittleFS := LittleFS s; Rtc := Rtc s; Serial := Serial s |}.

Definition set_spectro (v : Spectro) (s : State) : State :=
  {| storage := storage s; live := live s; stats := stats s; spectro := v;
     LittleFS := LittleFS s; Rtc := Rtc s; Serial := Serial s |}.

Definition set_LittleFS (v : gmap string (list byte)) (s : State) : State :=
  {| storage := storage s; live := live s; stats := stats s; spectro := spectro s;
     LittleFS := v; Rtc := Rtc s; Serial := Serial s |}.

Definition set_Rtc (v : RecordDateTime) (s : State) : State :=
  {| storage := storage s; live := live s; stats := stats s; spectro := spectro s;
     LittleFS := LittleFS s; Rtc := v; Serial := Serial s |}.

Definition set_Serial (v : list string) (s : State) : State :=
  {| storage := storage s; live := live s; stats := stats s; spectro := spectro s;
     LittleFS := LittleFS s; Rtc := Rtc s; Serial := v |}.

Definition Serial_print (x : string) (s : State) : State :=
  set_Serial (Serial s ++ [x]) s.

Definition Serial_println (x : string) (s : State) : State :=
  set_Serial (Serial s ++ [x +:+ CRLF]) s.

(** *** Object representations *)

Definition V3_bytes (v : V3) : list byte :=
  float_bytes (vX v) ++ float_bytes (vY v) ++ float_bytes (vZ v).

Definition V3_of_bytes (bs : list byte) : V3 :=
  (bytes_float (sub_bytes 0 4 bs), bytes_float (sub_bytes 4 4 bs),
   bytes_float (sub_bytes 8 4 bs)).

(** [sizeof(RecordMeta)]: 4 ([uint32_t]) + 8 ([RecordDateTime]) + 16
    [float]s. *)
Definition sizeof_RecordMeta : nat := 76.

Definition RecordMeta_bytes (m : RecordMeta) : list byte :=
  le_bytes 4 (timestamp m) ++ RecordDateTime_bytes (rtcTime m) ++
  float_bytes (samplingFreq m) ++ V3_bytes (meta_peak m) ++
  V3_bytes (meta_max m) ++ V3_bytes (meta_min m) ++
  V3_bytes (meta_mean m) ++ V3_bytes (meta_sd m).

Definition RecordMeta_of_bytes (bs : list byte) : RecordMeta :=
  {| timestamp := le_value (sub_bytes 0 4 bs);
     rtcTime := RecordDateTime_of_bytes (sub_bytes 4 8 bs);
     samplingFreq := bytes_float (sub_bytes 12 4 bs);
     meta_peak := V3_of_bytes (sub_bytes 16 12 bs);
     meta_max := V3_of_bytes (sub_bytes 28 12 bs);
     meta_min := V3_of_bytes (sub_bytes 40 12 bs);
     meta_mean := V3_of_bytes (sub_bytes 52 12 bs);
     meta_sd := V3_of_bytes (sub_bytes 64 12 bs) |}.

(** A [float] array as bytes, and [n] floats read from bytes. *)
Definition floats_bytes (a : list float) : list byte :=
  concat (map float_bytes a).

Fixpoint floats_of_bytes (n : nat) (bs : list byte) : list float :=
  match n with
  | O => []
  | S n' => bytes_float (take 4 bs) :: floats_of_bytes n' (drop 4 bs)
  end.

(** [SAMPLES * sizeof(float)]. *)
Definition array_size : nat := Z.to_nat (SAMPLES * 4).

(** [file.read] of a whole [float] array of [SAMPLES] entries. *)
Definition read_array (a : list float) (f : list byte) : list float * list byte :=
  let '(bs, f) := file_read array_size (floats_bytes a) f in
  (floats_of_bytes (Z.to_nat SAMPLES) bs, f).

(** *** RTC functions *)

Definition getRtcTime (s : State) : RecordDateTime := Rtc s.

Definition setRtcTime (dt : RecordDateTime) (s : State) : State := set_Rtc dt s.

Definition printDateTime (dt : RecordDateTime) (s : State) : State :=
  Serial_print (formatDateTime dt) s.

(** The six fields read from the (trimmed) text, each converted to the
    type of the field it is assigned to. *)
Definition parse_fields (timeStr : string) : RecordDateTime :=
  {| year := to_unsigned 16 (String_toInt (String_substring 0 4 timeStr));
     month := to_unsigned 8 (String_toInt (String_substring 5 7 timeStr));
     day := to_unsigned 8 (String_toInt (String_substring 8 10 timeStr));
     hour := to_unsigned 8 (String_toInt (String_substring 11 13 timeStr));
     minute := to_unsigned 8 (String_toInt (String_substring 14 16 timeStr));
     second := to_unsigned 8 (String_toInt (String_substring 17 19 timeStr)) |}.

Definition parseAndSetTime (timeStr : string) (s : State) : bool * State :=
  let timeStr := String_trim timeStr in
  if (String.length timeStr <? 19)%nat then
    (false, Serial_println "Format: yyyy-MM-dd HH:mm:ss"
              (Serial_println "Error: Time string too short" s))
  else
    let dt := parse_fields timeStr in
    if (year dt <? 2020) || (2099 <? year dt) then
      (false, Serial_println "Error: Invalid year (2020-2099)" s)
    else if (month dt <? 1) || (12 <? month dt) then
      (false, Serial_println "Error: Invalid month (1-12)" s)
    else if (day dt <? 1) || (31 <? day dt) then
      (false, Serial_println "Error: Invalid day (1-31)" s)
    else if 23 <? hour dt then
      (false, Serial_println "Error: Invalid hour (0-23)" s)
    else if 59 <? minute dt then
      (false, Serial_println "Error: Invalid minute (0-59)" s)
    else if 59 <? second dt then
      (false, Serial_println "Error: Invalid second (0-59)" s)
    else
      let s := setRtcTime dt s in
      let s := Serial_print "RTC set to: " s in
      let s := printDateTime dt s in
      let s := Serial_println EmptyString s in
      (true, s).

(** *** Storage functions *)

Definition saveStorageMetadata (env : Env) (s : State) : State :=
  if can_write env METADATA_FILE then
    let file := [] in
    let file := file_write (le_bytes 4 (storedRecordCount (storage s))) file in
    let file := file_write (le_bytes 4 (oldestRecordIndex (storage s))) file in
    let file := file_write (le_bytes 4 (newestRecordIndex (storage s))) file in
    set_LittleFS (<[METADATA_FILE := file]> (LittleFS s)) s
  else s.

Definition empty_Storage (st : Storage) : Storage :=
  set_newestRecordIndex (-1) (set_oldestRecordIndex 0 (set_storedRecordCount 0 st)).

Definition loadStorageMetadata (s : State) : State :=
  match LittleFS s !! METADATA_FILE with
  | Some file =>
      if (3 * 4 <=? length file)%nat then
        let '(b, file) := file_read 4 (le_bytes 4 (storedRecordCount (storage s))) file in
        let st := set_storedRecordCount (to_signed 32 (le_value b)) (storage s) in
        let '(b, file) := file_read 4 (le_bytes 4 (oldestRecordIndex st)) file in
        let st := set_oldestRecordIndex (to_signed 32 (le_value b)) st in
        let '(b, file) := file_read 4 (le_bytes 4 (newestRecordIndex st)) file in
        let st := set_newestRecordIndex (to_signed 32 (le_value b)) st in
        let st := if (storedRecordCount st <? 0) || (MAX_RECORDS <? storedRecordCount st)
                  then empty_Storage st else st in
        set_storage st s
      else set_storage (empty_Storage (storage s)) s
  | None => set_storage (empty_Storage (storage s)) s
  end.

(** The statements of the statistics loops of [saveCurrentRecord], on the
    fields of [meta]; [get] and [put] select the axis ([vX] and [setX] for
    [maxX], [minX], [meanX], [sdX], and so on). *)

(** [if (a > meta.max) meta.max = a;] *)
Definition meta_max_update (get : V3 -> float) (put : float -> V3 -> V3)
    (a : float) (meta : RecordMeta) : RecordMeta :=
  if flt (get (meta_max meta)) a
  then set_meta_max (put a (meta_max meta)) meta else meta.

(** [if (a < meta.min) meta.min = a;] *)
Definition meta_min_update (get : V3 -> float) (put : float -> V3 -> V3)
    (a : float) (meta : RecordMeta) : RecordMeta :=
  if flt a (get (meta_min meta))
  then set_meta_min (put a (meta_min meta)) meta else meta.

(** [meta.mean += a;] *)
Definition meta_mean_add (get : V3 -> float) (put : float -> V3 -> V3)
    (a : float) (meta : RecordMeta) : RecordMeta :=
  set_meta_mean (put (fadd (get (meta_mean meta)) a) (meta_mean meta)) meta.

(** [meta.sd += (a - meta.mean) * (a - meta.mean);] *)
Definition meta_sd_add (get : V3 -> float) (put : float -> V3 -> V3)
    (a : float) (meta : RecordMeta) : RecordMeta :=
  set_meta_sd
    (put (fadd (get (meta_sd meta))
            (fmul (fsub a (get (meta_mean meta))) (fsub a (get (meta_mean meta)))))
         (meta_sd meta)) meta.

Definition save_minmax_body (l : Live) (i : Z) (meta : RecordMeta) : RecordMeta :=
  let meta := meta_max_update vX setX (aget (accXvec l) i) meta in
  let meta := meta_min_update vX setX (aget (accXvec l) i) meta in
  let meta := meta_max_update vY setY (aget (accYvec l) i) meta in
  let meta := meta_min_update vY setY (aget (accYvec l) i) meta in
  let meta := meta_max_update vZ setZ (aget (accZvec l) i) meta in
  let meta := meta_min_update vZ setZ (aget (accZvec l) i) meta in
  let meta := meta_mean_add vX setX (aget (accXvec l) i) meta in
  let meta := meta_mean_add vY setY (aget (accYvec l) i) meta in
  let meta := meta_mean_add vZ setZ (aget (accZvec l) i) meta in
  meta.

Definition save_sd_body (l : Live) (i : Z) (meta : RecordMeta) : RecordMeta :=
  let meta := meta_sd_add vX setX (aget (accXvec l) i) meta in
  let meta := meta_sd_add vY setY (aget (accYvec l) i) meta in
  let meta := meta_sd_add vZ setZ (aget (accZvec l) i) meta in
  meta.

(** "Prepare metadata" and "Calculate statistics for metadata". *)
Definition save_meta (now : Z) (l : Live) : RecordMeta :=
  let meta :=
    {| timestamp := to_unsigned 32 now;
       rtcTime := currentRecordTime l;
       samplingFreq := samplingFrequency l;
       meta_peak := (xM l, yM l, zM l);
       meta_max := (flit (-9999), flit (-9999), flit (-9999));
       meta_min := (flit 9999, flit 9999, flit 9999);
       meta_mean := (flit 0, flit 0, flit 0);
       meta_sd := (flit 0, flit 0, flit 0) |} in
  let meta := for_loop 0 SAMPLES (save_minmax_body l) meta in
  let meta := set_meta_mean
      (fdiv (vX (meta_mean meta)) (float_of_int SAMPLES),
       fdiv (vY (meta_mean meta)) (float_of_int SAMPLES),
       fdiv (vZ (meta_mean meta)) (float_of_int SAMPLES)) meta in
  let meta := set_meta_sd (flit 0, flit 0, flit 0) meta in
  let meta := for_loop 0 SAMPLES (save_sd_body l) meta in
  let meta := set_meta_sd
      (sqrtf (fdiv (vX (meta_sd meta)) (float_of_int SAMPLES)),
       sqrtf (fdiv (vY (meta_sd meta)) (float_of_int SAMPLES)),
       sqrtf (fdiv (vZ (meta_sd meta)) (float_of_int SAMPLES))) meta in
  meta.

(** The bytes [saveCurrentRecord] writes into the record file. *)
Definition record_file (meta : RecordMeta) (l : Live) : list byte :=
  let file := [] in
  let file := file_write (RecordMeta_bytes meta) file in
  let file := file_write (take array_size (floats_bytes (accXvec l))) file in
  let file := file_write (take array_size (floats_bytes (accYvec l))) file in
  let file := file_write (take array_size (floats_bytes (accZvec l))) file in
  let file := file_write (take array_size (floats_bytes (vRealX l))) file in
  let file := file_write (take array_size (floats_bytes (vRealY l))) file in
  let file := file_write (take array_size (floats_bytes (vRealZ l))) file in
  file.

(** "Determine next record index (circular buffer)": the first statements
    of [saveCurrentRecord], which run before the file is opened. *)
Definition next_record_index (st : Storage) : Storage :=
  let st := set_newestRecordIndex
              (c_rem (newestRecordIndex st + 1) MAX_RECORDS) st in
  if MAX_RECORDS <=? storedRecordCount st
  then set_oldestRecordIndex (c_rem (oldestRecordIndex st + 1) MAX_RECORDS) st
  else set_storedRecordCount (storedRecordCount st + 1) st.

Definition saveCurrentRecord (env : Env) (s : State) : bool * State :=
  if negb (storageReady (storage s)) then (false, s)
  else
    let s := set_storage (next_record_index (storage s)) s in
    let filename := record_filename (newestRecordIndex (storage s)) in
    if negb (can_write env filename) then
      (false, Serial_println "Failed to open file for writing" s)
    else
      let meta := save_meta (millis env) (live s) in
      let s := set_stats {| maxV := meta_max meta; minV := meta_min meta;
                            meanV := meta_mean meta; sdV := meta_sd meta |} s in
      let s := set_LittleFS (<[filename := record_file meta (live s)]> (LittleFS s)) s in
      let s := saveStorageMetadata env s in
      let s := Serial_print "Saved record #" s in
      let s := Serial_print (string_of_Z (newestRecordIndex (storage s))) s in
      let s := Serial_print " @ " s in
      let s := printDateTime (currentRecordTime (live s)) s in
      let s := Serial_print " (" s in
      let s := Serial_print (string_of_Z (storedRecordCount (storage s))) s in
      let s := Serial_print "/" s in
      let s := Serial_print (string_of_Z MAX_RECORDS) s in
      let s := Serial_println ")" s in
      (true, s).

(** *** Spectrogram

    The builder is written over the four constants it depends on, so that
    it can also be read with fewer samples than one segment; the sketch
    itself runs it at [SAMPLES], [SEG_LEN], [SEG_OVERLAP_PCT], [SEG_MAX]. *)

Definition specMag_set (m : list (list float)) (seg k : Z) (v : float)
  : list (list float) :=
  alter (fun row => <[Z.to_nat k := v]> row) (Z.to_nat seg) m.


(** The total-acceleration segment starting at [start], after the four
    arduinoFFT calls: the array [segReal]. *)
Definition segment_spectrum (seg_len : Z) (l : Live) (start : Z) : list float :=
  let segReal :=
    map (fun i =>
           let ax := aget (accXvec l) (start + i) in
           let ay := aget (accYvec l) (start + i) in
           let az := aget (accZvec l) (start + i) in
           sqrtf (fadd (fadd (fmul ax ax) (fmul ay ay)) (fmul az az)))
        (seqZ 0 seg_len) in
  let segImag := map (fun _ => flit 0) (seqZ 0 seg_len) in
  let segReal := FFT_dcRemoval segReal in
  let segReal := FFT_windowing segReal in
  let '(segReal, segImag) := FFT_compute segReal segImag in
  FFT_complexToMagnitude segReal segImag.

Definition spectro_bin_body (segReal : list float) (k : Z) (sp : Spectro) : Spectro :=
  let mag := aget segReal k in
  let mag := if flt mag (flit (1 # 1000000000)) then flit (1 # 1000000000) else mag in
  let lv := log10f mag in
  let sp := set_specMag (specMag_set (specMag sp) (specSegments sp) k lv) sp in
  let sp := if flt lv (specLogMin sp) then set_specLogMin lv sp else sp in
  let sp := if flt (specLogMax sp) lv then set_specLogMax lv sp else sp in
  sp.

(** The segment loop.  Every iteration increments [specSegments], which the
    loop condition keeps below [seg_max], so [seg_max] iterations of fuel
    are never used up ([spectro_segments_fuel] below). *)
Fixpoint spectro_segments (fuel : nat) (samples seg_len seg_max hop : Z)
    (l : Live) (start : Z) (sp : Spectro) : Spectro :=
  if (start + seg_len <=? samples) && (specSegments sp <? seg_max) then
    match fuel with
    | O => sp
    | S fuel' =>
        let segReal := segment_spectrum seg_len l start in
        let sp := for_loop 0 (Z.quot seg_len 2) (spectro_bin_body segReal) sp in
        let sp := set_specSegments (specSegments sp + 1) sp in
        spectro_segments fuel' samples seg_len seg_max hop l (start + hop) sp
    end
  else sp.

(** [if (specSegments == 0) { ... }]: the one all-zero segment. *)
Definition spectro_fallback (seg_len : Z) (sp : Spectro) : Spectro :=
  if specSegments sp =? 0 then
    let sp := set_specSegments 1 sp in
    let sp := for_loop 0 (Z.quot seg_len 2)
                (fun k sp => set_specMag (specMag_set (specMag sp) 0 k (flit 0)) sp) sp in
    let sp := set_specLogMin (flit 0) sp in
    set_specLogMax (flit 1) sp
  else sp.

(** The last statements: the minimal span and the 3-decade floor. *)
Definition spectro_clamp (sp : Spectro) : Spectro :=
  let sp := if flt (fsub (specLogMax sp) (specLogMin sp)) (flit (1 # 1000))
            then set_specLogMax (fadd (specLogMin sp) (flit (1 # 1000))) sp
            else sp in
  let span := fsub (specLogMax sp) (specLogMin sp) in
  let sp := if flt (flit 3) span
            then set_specLogMin (fsub (specLogMax sp) (flit 3)) sp
            else sp in
  sp.

Definition computeSpectrogram_with (samples seg_len overlap_pct seg_max : Z)
    (l : Live) (sp : Spectro) : Spectro :=
  let sp := set_specSegments 0 sp in
  let sp := set_specLogMin (flit 1000000000) sp in
  let sp := set_specLogMax (flit (-1000000000)) sp in
  let overlapSamples := Z.quot (seg_len * overlap_pct) 100 in
  let overlapSamples := if seg_len <=? overlapSamples then seg_len - 1
                        else overlapSamples in
  let hop := seg_len - overlapSamples in
  let sp := spectro_segments (Z.to_nat seg_max) samples seg_len seg_max hop l 0 sp in
  let sp := spectro_fallback seg_len sp in
  spectro_clamp sp.

Definition computeSpectrogramFromRecord (s : State) : State :=
  set_spectro
    (computeSpectrogram_with SAMPLES SEG_LEN SEG_OVERLAP_PCT SEG_MAX (live s) (spectro s))
    s.


(** *** Loading, clearing and exporting records *)

(** [loadRecord] once the file is open: "Read metadata" to the end. *)
Definition load_from_file (logicalIndex : Z) (file : list byte) (s : State) : State :=
  (* the local [meta] is uninitialised; its bytes are taken as zero *)
  let '(mb, file) :=
    file_read sizeof_RecordMeta (replicate sizeof_RecordMeta Byte.x00) file in
  let meta := RecordMeta_of_bytes mb in
  let '(ax, file) := read_array (accXvec (live s)) file in
  let '(ay, file) := read_array (accYvec (live s)) file in
  let '(az, file) := read_array (accZvec (live s)) file in
  let '(vx, file) := read_array (vRealX (live s)) file in
  let '(vy, file) := read_array (vRealY (live s)) file in
  let '(vz, file) := read_array (vRealZ (live s)) file in
  let s := set_live
    {| currentRecordTime := rtcTime meta;
       samplingFrequency := samplingFreq meta;
       xM := vX (meta_peak meta);
       yM := vY (meta_peak meta);
       zM := vZ (meta_peak meta);
       accXvec := ax; accYvec := ay; accZvec := az;
       vRealX := vx; vRealY := vy; vRealZ := vz |} s in
  let s := set_stats {| maxV := meta_max meta; minV := meta_min meta;
                        meanV := meta_mean meta; sdV := meta_sd meta |} s in
  let s := computeSpectrogramFromRecord s in
  let s := set_storage (set_currentViewRecord logicalIndex (storage s)) s in
  let s := Serial_print "Loaded record #" s in
  let s := Serial_print (string_of_Z logicalIndex) s in
  let s := Serial_print " @ " s in
  let s := printDateTime (currentRecordTime (live s)) s in
  let s := Serial_println EmptyString s in
  s.

Definition loadRecord (logicalIndex : Z) (s : State) : bool * State :=
  if negb (storageReady (storage s)) || (logicalIndex <? 0)
     || (storedRecordCount (storage s) =? 0)
  then (false, s)
  else
    let logicalIndex :=
      if storedRecordCount (storage s) <=? logicalIndex
      then storedRecordCount (storage s) - 1 else logicalIndex in
    let fileIndex :=
      c_rem (oldestRecordIndex (storage s) + logicalIndex) MAX_RECORDS in
    let filename := record_filename fileIndex in
    match LittleFS s !! filename with
    | None => (false, Serial_println filename (Serial_print "Failed to open: " s))
    | Some file => (true, load_from_file logicalIndex file s)
    end.

Definition loadNewestRecord (s : State) : bool * State :=
  if 0 <? storedRecordCount (storage s)
  then loadRecord (storedRecordCount (storage s) - 1) s
  else (false, s).

Definition clearAllRecords (env : Env) (s : State) : State :=
  let s := Serial_println "Clearing all records..." s in
  let s := for_loop 0 MAX_RECORDS
             (fun i s =>
                let filename := record_filename i in
                match LittleFS s !! filename with
                | Some _ => set_LittleFS (delete filename (LittleFS s)) s
                | None => s
                end) s in
  let s := set_storage (set_currentViewRecord (-1) (empty_Storage (storage s))) s in
  let s := saveStorageMetadata env s in
  Serial_println "All records cleared" s.

(** The body of the record loop of [exportAllRecordsSerial].  The bin
    frequency is computed by the sketch in [double] and narrowed to
    [float]; it only appears in the text. *)
Definition export_record (r : Z) (s : State) : State :=
  let s := (loadRecord r s).2 in
  let s := Serial_print "=== RECORD " s in
  let s := Serial_print (string_of_Z r) s in
  let s := Serial_println " ===" s in
  let s := Serial_print "TIMESTAMP:" s in
  let s := printDateTime (currentRecordTime (live s)) s in
  let s := Serial_println EmptyString s in
  let s := Serial_print "SAMPLING_FREQ:" s in
  let s := Serial_println (print_float (samplingFrequency (live s)) 2) s in
  let s := Serial_print "PEAK_FREQ:" s in
  let s := Serial_print (print_float (xM (live s)) 3) s in
  let s := Serial_print "," s in
  let s := Serial_print (print_float (yM (live s)) 3) s in
  let s := Serial_print "," s in
  let s := Serial_println (print_float (zM (live s)) 3) s in
  let s := Serial_println "TIME_DATA:" s in
  let s := for_loop 0 SAMPLES
             (fun i s =>
                let s := Serial_print (print_float (aget (accXvec (live s)) i) 5) s in
                let s := Serial_print "," s in
                let s := Serial_print (print_float (aget (accYvec (live s)) i) 5) s in
                let s := Serial_print "," s in
                Serial_println (print_float (aget (accZvec (live s)) i) 5) s) s in
  let s := Serial_println "SPECTRUM:" s in
  let s := for_loop 0 (Z.quot SAMPLES 2)
             (fun i s =>
                let f := fdiv (fmul (fmul (float_of_int i) (flit 1))
                                 (samplingFrequency (live s)))
                           (float_of_int SAMPLES) in
                let s := Serial_print (print_float f 3) s in
                let s := Serial_print "," s in
                let s := Serial_print (print_float (aget (vRealX (live s)) i) 5) s in
                let s := Serial_print "," s in
                let s := Serial_print (print_float (aget (vRealY (live s)) i) 5) s in
                let s := Serial_print "," s in
                Serial_println (print_float (aget (vRealZ (live s)) i) 5) s) s in
  s.

Definition exportAllRecordsSerial (s : State) : State :=
  let s := Serial_println "=== BEGIN EXPORT ===" s in
  let s := Serial_print "RECORD_COUNT:" s in
  let s := Serial_println (string_of_Z (storedRecordCount (storage s))) s in
  let now := getRtcTime s in
  let s := Serial_print "EXPORT_TIME:" s in
  let s := printDateTime now s in
  let s := Serial_println EmptyString s in
  let savedViewRecord := currentViewRecord (storage s) in
  let savedRecordTime := currentRecordTime (live s) in
  let s := for_loop 0 (storedRecordCount (storage s)) export_record s in
  let s := Serial_println "=== END EXPORT ===" s in
  let s := if 0 <=? savedViewRecord then (loadRecord savedViewRecord s).2 else s in
  let s := set_storage (set_currentViewRecord savedViewRecord (storage s)) s in
  let s := set_live (set_currentRecordTime savedRecordTime (live s)) s in
  s.

(** *** The statistics of [drawStatisticsScreen]

    The local variables of the function, as they stand after its two loops;
    the drawing calls that follow only read them. *)





(** *** The measured sampling frequency ([loop], "sampling finished")

    [t] holds the [long] time stamps of the capture, in microseconds. *)

Definition loop_dt (t : list Z) : Z :=
  for_loop 0 (SAMPLES - 1)
    (fun i dt =>
       to_signed 32 (dt + to_signed 32 (nth (Z.to_nat (i + 1)) t 0 - nth (Z.to_nat i) t 0)))
    0.

Definition loop_samplingFrequency (t : list Z) : float :=
  let dt := loop_dt t in
  let dts := fdiv (fdiv (float_of_int dt) (float_of_int (SAMPLES - 1)))
               (flit 1000000) in
  fdiv (flit 1) dts.

End Model.

Arguments RecordMeta float : clear implicits.
Arguments V3 float : clear implicits.
Arguments Live float : clear implicits.
Arguments Stats float : clear implicits.
Arguments Spectro float : clear implicits.
Arguments State float : clear implicits.

(** ** Instance: IEEE-754 binary32

    A [float] is its four bytes in memory (least significant first).
    Arithmetic decodes the bit pattern, computes with the Standard Library's
    specification of IEEE arithmetic at precision 24 and maximal exponent
    128 (round to nearest, ties to even), and encodes the result; a NaN
    result is the quiet NaN [0x7FC00000].  [log10f] (libm), the text
    produced by [Print] and the arduinoFFT transforms are not implemented:
    the instance passes their argument through, and no statement below
    depends on their values. *)

Module Binary32.

Record t := mk { b0 : byte; b1 : byte; b2 : byte; b3 : byte }.

Definition to_bytes (f : t) : list byte := [b0 f; b1 f; b2 f; b3 f].

Definition of_bytes (bs : list byte) : t :=
  mk (nth 0 bs Byte.x00) (nth 1 bs Byte.x00) (nth 2 bs Byte.x00) (nth 3 bs Byte.x00).

Definition bits (f : t) : Z := le_value (to_bytes f).

Definition of_bits (z : Z) : t := of_bytes (le_bytes 4 z).

Definition decode (z : Z) : spec_float :=
  let sign := Z.testbit z 31 in
  let e := (z / 2 ^ 23) mod 256 in
  let m := z mod 2 ^ 23 in
  if e =? 0 then
    if m =? 0 then S754_zero sign else S754_finite sign (Z.to_pos m) (-149)
  else if e =? 255 then
    if m =? 0 then S754_infinity sign else S754_nan
  else S754_finite sign (Z.to_pos (m + 2 ^ 23)) (e - 150).

Definition encode (x : spec_float) : Z :=
  match x with
  | S754_zero s => if s then 2 ^ 31 else 0
  | S754_infinity s => (if s then 2 ^ 31 else 0) + 255 * 2 ^ 23
  | S754_nan => 255 * 2 ^ 23 + 2 ^ 22
  | S754_finite s m e =>
      (if s then 2 ^ 31 else 0)
      + (if Z.pos m <? 2 ^ 23 then Z.pos m
         else (e + 150) * 2 ^ 23 + (Z.pos m - 2 ^ 23))
  end.

Definition to_sf (f : t) : spec_float := decode (bits f).
Definition of_sf (x : spec_float) : t := of_bits (encode x).

Definition of_int (z : Z) : t := of_sf (binary_normalize 24 128 z 0 false).

Definition op2 (f : spec_float -> spec_float -> spec_float) (a b : t) : t :=
  of_sf (f (to_sf a) (to_sf b)).

(** A literal [n/d] with [n] and [d] exactly representable: one correctly
    rounded division. *)
Definition lit (q : Q) : t :=
  op2 (SFdiv 24 128) (of_int (Qnum q)) (of_int (Z.pos (Qden q))).

(** The rational number a finite bit pattern stands for (0 for infinities
    and NaN). *)
Definition pow2 (e : Z) : Q :=
  if 0 <=? e then inject_Z (2 ^ e) else (1 / inject_Z (2 ^ (- e)))%Q.

Definition SF2Q (x : spec_float) : Q :=
  match x with
  | S754_finite s m e =>
      ((if s then inject_Z (Z.neg m) else inject_Z (Z.pos m)) * pow2 e)%Q
  | _ => 0%Q
  end.

Definition value (f : t) : Q := SF2Q (to_sf f).

#[global] Instance ops : FloatOps t := {|
  flit := lit;
  float_of_int := of_int;
  fadd := op2 (SFadd 24 128);
  fsub := op2 (SFsub 24 128);
  fmul := op2 (SFmul 24 128);
  fdiv := op2 (SFdiv 24 128);
  flt := fun a b => SFltb (to_sf a) (to_sf b);
  sqrtf := fun a => of_sf (SFsqrt 24 128 (to_sf a));
  log10f := fun a => a;
  float_bytes := to_bytes;
  bytes_float := of_bytes;
  print_float := fun a _ => string_of_Z (bits a)
|}.

#[global] Instance fft : ArduinoFFT t := {|
  FFT_dcRemoval := fun v => v;
  FFT_windowing := fun v => v;
  FFT_compute := fun re im => (re, im);
  FFT_complexToMagnitude := fun re _ => re
|}.

End Binary32.

(** ** Reading binary32 results in the rationals *)

(** The rounding location of the exact quotient [num/den] relative to its
    integer part: what [SFdiv] passes to the rounding of its result. *)
Definition loc_of (num den : Z) : location :=
  if num mod den =? 0 then loc_Exact
  else loc_Inexact (2 * (num mod den) ?= den).

(** One rounding to nearest, read in the rationals: the exact value [X]
    lies within [2^-24], relative to the result [V], of the positive
    result. *)
Definition near (V X : Q) : Prop :=
  (0 < V /\ V * (1 - (1 # 16777216)) <= X /\ X <= V * (1 + (1 # 16777216)))%Q.

(** [a] holds a positive normal number with mantissa [m] and exponent [e]. *)
Definition normal32 (a : Binary32.t) (m : positive) (e : Z) : Prop :=
  Binary32.to_sf a = S754_finite false m e /\ 2 ^ 23 <= Z.pos m < 2 ^ 24.

(** ** Notions used in the statements *)

(** The field ranges of [struct RecordDateTime] ([uint16_t], [uint8_t]). *)
Definition wf_DateTime (dt : RecordDateTime) : Prop :=
  0 <= year dt < 65536 /\ 0 <= month dt < 256 /\ 0 <= day dt < 256 /\
  0 <= hour dt < 256 /\ 0 <= minute dt < 256 /\ 0 <= second dt < 256.

(** The ring cursors are in range and consistent: the slot after the newest
    record is [count] slots after the oldest one. *)
Definition ring_inv (st : Storage) : Prop :=
  0 <= storedRecordCount st <= MAX_RECORDS /\
  0 <= oldestRecordIndex st < MAX_RECORDS /\
  -1 <= newestRecordIndex st < MAX_RECORDS /\
  (newestRecordIndex st + 1) mod MAX_RECORDS
  = (oldestRecordIndex st + storedRecordCount st) mod MAX_RECORDS.

(** The accepted ranges of the wall-clock fields, on the numbers the text
    holds (before they are narrowed to the fields' types). *)
Definition text_fields (timeStr : string) : list Z :=
  let timeStr := String_trim timeStr in
  [String_toInt (String_substring 0 4 timeStr);
   String_toInt (String_substring 5 7 timeStr);
   String_toInt (String_substring 8 10 timeStr);
   String_toInt (String_substring 11 13 timeStr);
   String_toInt (String_substring 14 16 timeStr);
   String_toInt (String_substring 17 19 timeStr)].

Definition fields_in_range (fields : list Z) : Prop :=
  match fields with
  | [y; mo; d; h; mi; se] =>
      2020 <= y <= 2099 /\ 1 <= mo <= 12 /\ 1 <= d <= 31 /\
      0 <= h <= 23 /\ 0 <= mi <= 59 /\ 0 <= se <= 59
  | _ => False
  end.

(** The same ranges on the fields of a date-time value. *)
Definition DateTime_in_range (dt : RecordDateTime) : Prop :=
  2020 <= year dt <= 2099 /\ 1 <= month dt <= 12 /\ 1 <= day dt <= 31 /\
  0 <= hour dt <= 23 /\ 0 <= minute dt <= 59 /\ 0 <= second dt <= 59.

Definition DateTime_of_fields (fields : list Z) : RecordDateTime :=
  {| year := nth 0 fields 0; month := nth 1 fields 0; day := nth 2 fields 0;
     hour := nth 3 fields 0; minute := nth 4 fields 0; second := nth 5 fields 0 |}.

(** The sum of the inter-sample deltas of a capture, in microseconds. *)
Definition sum_deltas (t : list Z) : Z :=
  fold_right Z.add 0
    (map (fun i => nth (Z.to_nat (i + 1)) t 0 - nth (Z.to_nat i) t 0)
         (seqZ 0 (SAMPLES - 1))).

(** Time stamps as an acquisition produces them: [SAMPLES] values that fit
    a [long] and never decrease. *)
Definition timestamps_ok (t : list Z) : Prop :=
  length t = Z.to_nat SAMPLES /\
  Forall (fun x => 0 <= x < 2 ^ 31) t /\
  forall i, 0 <= i < SAMPLES - 1 ->
    nth (Z.to_nat i) t 0 <= nth (Z.to_nat (i + 1)) t 0.

Section Notions.
Context {float : Type} `{!FloatOps float} `{!ArduinoFFT float}.

(** The capture has the array sizes and field ranges of the sketch. *)
Definition wf_Live (l : Live float) : Prop :=
  wf_DateTime (currentRecordTime l) /\
  length (accXvec l) = Z.to_nat SAMPLES /\
  length (accYvec l) = Z.to_nat SAMPLES /\
  length (accZvec l) = Z.to_nat SAMPLES /\
  length (vRealX l) = Z.to_nat SAMPLES /\
  length (vRealY l) = Z.to_nat SAMPLES /\
  length (vRealZ l) = Z.to_nat SAMPLES.


(** Two states that differ at most in the text sent to the serial port. *)
Definition same_but_Serial (s s' : State float) : Prop :=
  storage s' = storage s /\ live s' = live s /\ stats s' = stats s /\
  spectro s' = spectro s /\ LittleFS s' = LittleFS s /\ Rtc s' = Rtc s.





(** Following the design's words (4.4): "fixed-size metadata header
    immediately followed by raw capture (3 x N floats) then spectra
    (3 x N/2 floats)". *)
Definition layout_in_design (meta : RecordMeta float) (l : Live float) : list byte :=
  RecordMeta_bytes meta ++
  floats_bytes (accXvec l) ++ floats_bytes (accYvec l) ++ floats_bytes (accZvec l) ++
  floats_bytes (take (Z.to_nat (SAMPLES / 2)) (vRealX l)) ++
  floats_bytes (take (Z.to_nat (SAMPLES / 2)) (vRealY l)) ++
  floats_bytes (take (Z.to_nat (SAMPLES / 2)) (vRealZ l)).

(** An acquisition followed by the automatic save: the capture [r] becomes
    the live data, then [saveCurrentRecord] runs. *)
Definition append (er : Env * Live float) (s : State float) : State float :=
  (saveCurrentRecord er.1 (set_live er.2 s)).2.

Definition append_all (ers : list (Env * Live float)) (s : State float) : State float :=
  fold_left (fun s er => append er s) ers s.

End Notions.

(** ** Sample data for the closed statements *)

Definition demo_time : RecordDateTime :=
  {| year := 2025; month := 1; day := 15; hour := 14; minute := 30; second := 0 |}.

Definition demo_env : Env := {| millis := 123456; can_write := fun _ => true |}.

(** An environment in which no file can be opened for writing. *)
Definition failing_env : Env := {| millis := 123456; can_write := fun _ => false |}.

(** A capture whose samples follow a small repeating pattern. *)
Definition demo_live (k : Z) : Live Binary32.t :=
  {| currentRecordTime := demo_time;
     samplingFrequency := Binary32.of_int 200;
     xM := Binary32.of_int 20; yM := Binary32.of_int 21; zM := Binary32.of_int 22;
     accXvec := map (fun i => Binary32.of_int ((i + k) mod 5)) (seqZ 0 SAMPLES);
     accYvec := map (fun i => Binary32.of_int ((i + k) mod 7)) (seqZ 0 SAMPLES);
     accZvec := map (fun i => Binary32.of_int 1) (seqZ 0 SAMPLES);
     vRealX := map (fun i => Binary32.of_int (i + k)) (seqZ 0 SAMPLES);
     vRealY := map (fun i => Binary32.of_int (2 * i)) (seqZ 0 SAMPLES);
     vRealZ := map (fun i => Binary32.of_int (3 * i)) (seqZ 0 SAMPLES) |}.

Definition zero_V3 : V3 Binary32.t :=
  (Binary32.of_int 0, Binary32.of_int 0, Binary32.of_int 0).

(** The state after start-up with an empty, mounted file system. *)
Definition demo_state : State Binary32.t :=
  {| storage := {| storedRecordCount := 0; currentViewRecord := -1;
                   oldestRecordIndex := 0; newestRecordIndex := -1;
                   storageReady := true |};
     live := demo_live 0;
     stats := {| maxV := zero_V3; meanV := zero_V3; sdV := zero_V3; minV := zero_V3 |};
     spectro := {| specMag := replicate (Z.to_nat SEG_MAX)
                                (replicate (Z.to_nat SPEC_BINS) (Binary32.of_int 0));
                   specSegments := 0;
                   specLogMin := Binary32.of_int 0;
                   specLogMax := Binary32.of_int 1 |};
     LittleFS := ∅;
     Rtc := demo_time;
     Serial := [] |}.


(** [demo_state] after one record was saved. *)
Definition demo_saved : State Binary32.t := (saveCurrentRecord demo_env demo_state).2.

(** Time stamps 0, 5000, 10000, ...: uniform 5 ms deltas. *)
Definition uniform_5ms : list Z := map (fun i => 5000 * i) (seqZ 0 SAMPLES).

(** Time stamps 0, 4984, 9968, ...: uniform deltas of 4984 microseconds. *)
Definition uniform_4984us : list Z := map (fun i => 4984 * i) (seqZ 0 SAMPLES).


(** A state with another capture in memory than the one [demo_saved]
    holds in its file. *)
Definition demo_later : State Binary32.t :=
  {| storage := storage demo_saved;
     live := demo_live 3;
     stats := {| maxV := zero_V3; meanV := zero_V3; sdV := zero_V3; minV := zero_V3 |};
     spectro := spectro demo_state;
     LittleFS := LittleFS demo_saved;
     Rtc := demo_time;
     Serial := [] |}.

(** * Properties *)

(** ** Bytes and integers *)

Lemma Z_of_byte_range (b : byte) : 0 <= Z_of_byte b < 256.
Proof.
  unfold Z_of_byte. pose proof (Byte.to_N_bounded b) as Hb. lia.
Qed.

Lemma Z_of_byte_of_Z (z : Z) : Z_of_byte (byte_of_Z z) = z mod 256.
Proof.
  unfold byte_of_Z, Z_of_byte.
  assert (Hr : 0 <= z mod 256 < 256) by (apply Z.mod_pos_bound; lia).
  destruct (Byte.of_N (Z.to_N (z mod 256))) as [b|] eqn:E.
  - apply Byte.to_of_N in E. rewrite E. lia.
  - apply Byte.of_N_None_iff in E. lia.
Qed.

Lemma length_le_bytes (n : nat) (z : Z) : length (le_bytes n z) = n.
Proof.
  revert z. induction n as [|n IH]; intros z; simpl; [|rewrite IH]; reflexivity.
Qed.

Lemma le_value_le_bytes (n : nat) (z : Z) :
  le_value (le_bytes n z) = z mod 2 ^ (8 * Z.of_nat n).
Proof.
  revert z. induction n as [|n IH]; intros z.
  - simpl. rewrite Z.mod_1_r. reflexivity.
  - cbn [le_bytes le_value]. rewrite IH, Z_of_byte_of_Z.
    replace (8 * Z.of_nat (S n)) with (8 + 8 * Z.of_nat n) by lia.
    rewrite Z.pow_add_r by lia. change (2 ^ 8) with 256.
    rewrite Z.rem_mul_r by lia. reflexivity.
Qed.

(** An unsigned value that fits [n] bytes is read back unchanged. *)
Lemma le_value_le_bytes_small (n : nat) (z : Z) :
  0 <= z < 2 ^ (8 * Z.of_nat n) -> le_value (le_bytes n z) = z.
Proof.
  intros Hz. rewrite le_value_le_bytes. apply Z.mod_small, Hz.
Qed.

Lemma to_signed_id (w z : Z) :
  0 < w -> - 2 ^ (w - 1) <= z < 2 ^ (w - 1) -> to_signed w z = z.
Proof.
  intros Hw Hz. unfold to_signed.
  assert (E : 2 ^ w = 2 * 2 ^ (w - 1)).
  { replace w with (1 + (w - 1)) at 1 by lia. rewrite Z.pow_add_r by lia. reflexivity. }
  rewrite Z.mod_small by lia. lia.
Qed.

(** ** Slices of concatenated byte strings *)

Lemma sub_bytes_here (len : nat) (x r : list byte) :
  length x = len -> sub_bytes 0 len (x ++ r) = x.
Proof.
  intros <-. unfold sub_bytes. rewrite drop_0. apply take_app_length.
Qed.

Lemma sub_bytes_skip (off len : nat) (p r : list byte) :
  (length p <= off)%nat ->
  sub_bytes off len (p ++ r) = sub_bytes (off - length p) len r.
Proof.
  intros Hle. unfold sub_bytes. rewrite drop_app_ge by exact Hle. reflexivity.
Qed.

Lemma sub_bytes_last (len : nat) (x : list byte) :
  length x = len -> sub_bytes 0 len x = x.
Proof.
  intros <-. unfold sub_bytes. rewrite drop_0. apply take_ge. lia.
Qed.

(** ** Loops *)

Lemma for_loop_nil {A : Type} (lo hi : Z) (body : Z -> A -> A) (a : A) :
  hi <= lo -> for_loop lo hi body a = a.
Proof.
  intros Hle. unfold for_loop. rewrite seqZ_nil by lia. reflexivity.
Qed.

Lemma for_loop_last {A : Type} (lo hi : Z) (body : Z -> A -> A) (a : A) :
  lo <= hi ->
  for_loop lo (hi + 1) body a = body hi (for_loop lo hi body a).
Proof.
  intros Hle. unfold for_loop.
  replace (hi + 1 - lo) with ((hi - lo) + 1) by lia.
  rewrite seqZ_app by lia. rewrite fold_left_app.
  replace (lo + (hi - lo)) with hi by lia. reflexivity.
Qed.

(** A property that every iteration preserves holds after the loop. *)
Lemma for_loop_invariant {A : Type} (P : A -> Prop) (lo hi : Z)
    (body : Z -> A -> A) (a : A) :
  P a -> (forall i x, lo <= i < hi -> P x -> P (body i x)) ->
  P (for_loop lo hi body a).
Proof.
  intros Ha Hstep. unfold for_loop.
  destruct (Z_le_gt_dec (hi - lo) 0) as [Hn|Hp].
  { rewrite seqZ_nil by lia. exact Ha. }
  assert (Hin : forall i, i ∈ seqZ lo (hi - lo) -> lo <= i < hi).
  { intros i Hi. apply elem_of_seqZ in Hi. lia. }
  revert a Ha Hin. generalize (seqZ lo (hi - lo)) as l.
  induction l as [|i l IH]; intros a Ha Hin; [exact Ha|].
  cbn [fold_left]. apply IH.
  - apply Hstep; [apply Hin; left|exact Ha].
  - intros j Hj. apply Hin. right. exact Hj.
Qed.


(** ** Object representations are read back unchanged *)

Lemma RecordDateTime_bytes_length (dt : RecordDateTime) :
  length (RecordDateTime_bytes dt) = 8%nat.
Proof. reflexivity. Qed.

Lemma RecordDateTime_roundtrip (dt : RecordDateTime) (r : list byte) :
  wf_DateTime dt ->
  RecordDateTime_of_bytes (sub_bytes 0 8 (RecordDateTime_bytes dt ++ r)) = dt.
Proof.
  intros (Hy & Hmo & Hd & Hh & Hmi & Hs).
  rewrite sub_bytes_here by reflexivity.
  destruct dt as [y mo d h mi s]; cbn [year month day hour minute second] in *.
  unfold RecordDateTime_of_bytes, RecordDateTime_bytes.
  f_equal;
    repeat (rewrite sub_bytes_skip by (rewrite length_le_bytes; lia);
            rewrite length_le_bytes; cbn [Nat.sub]);
    rewrite sub_bytes_here by apply length_le_bytes;
    apply le_value_le_bytes_small; cbn; lia.
Qed.

Section Representation.
Context {float : Type} `{!FloatOps float} `{!ArduinoFFT float} `{!FloatRepr float}.

Lemma V3_bytes_length (v : V3 float) : length (V3_bytes v) = 12%nat.
Proof.
  unfold V3_bytes. rewrite !length_app, !length_float_bytes. reflexivity.
Qed.

Lemma V3_roundtrip (v : V3 float) : V3_of_bytes (V3_bytes v) = v.
Proof.
  destruct v as [[x y] z]. unfold V3_of_bytes, V3_bytes, vX, vY, vZ. cbn [fst snd].
  rewrite sub_bytes_here by apply length_float_bytes.
  rewrite sub_bytes_skip by (rewrite length_float_bytes; lia).
  rewrite length_float_bytes. cbn [Nat.sub].
  rewrite sub_bytes_here by apply length_float_bytes.
  rewrite sub_bytes_skip by (rewrite length_float_bytes; lia).
  rewrite length_float_bytes. cbn [Nat.sub].
  rewrite sub_bytes_skip by (rewrite length_float_bytes; lia).
  rewrite length_float_bytes. cbn [Nat.sub].
  rewrite sub_bytes_last by apply length_float_bytes.
  rewrite !bytes_float_bytes. reflexivity.
Qed.

Lemma RecordMeta_bytes_length (m : RecordMeta float) :
  length (RecordMeta_bytes m) = sizeof_RecordMeta.
Proof.
  unfold RecordMeta_bytes.
  rewrite !length_app, length_le_bytes, RecordDateTime_bytes_length,
    length_float_bytes, !V3_bytes_length.
  reflexivity.
Qed.

Ltac skip_piece Hlen :=
  rewrite sub_bytes_skip by (rewrite Hlen; lia); rewrite Hlen; cbn [Nat.sub].

(** The header of a record file decodes to the metadata that was written. *)
Lemma RecordMeta_roundtrip (m : RecordMeta float) :
  0 <= timestamp m < 2 ^ 32 -> wf_DateTime (rtcTime m) ->
  RecordMeta_of_bytes (RecordMeta_bytes m) = m.
Proof.
  intros Ht Hdt. destruct m as [ts dt fs pk mx mn mean sd].
  cbn [timestamp rtcTime] in Ht, Hdt.
  unfold RecordMeta_of_bytes, RecordMeta_bytes.
  cbn [timestamp rtcTime samplingFreq meta_peak meta_max meta_min meta_mean meta_sd].
  f_equal.
  - rewrite sub_bytes_here by apply length_le_bytes.
    apply le_value_le_bytes_small. exact Ht.
  - skip_piece (length_le_bytes 4 ts).
    replace (sub_bytes 0 8 (RecordDateTime_bytes dt ++
       float_bytes fs ++ V3_bytes pk ++ V3_bytes mx ++ V3_bytes mn ++
       V3_bytes mean ++ V3_bytes sd))
      with (sub_bytes 0 8 (RecordDateTime_bytes dt ++
              sub_bytes 0 0 (float_bytes fs))).
    + apply RecordDateTime_roundtrip, Hdt.
    + rewrite !sub_bytes_here by reflexivity. reflexivity.
  - skip_piece (length_le_bytes 4 ts). skip_piece (RecordDateTime_bytes_length dt).
    rewrite sub_bytes_here by apply length_float_bytes. apply bytes_float_bytes.
  - skip_piece (length_le_bytes 4 ts). skip_piece (RecordDateTime_bytes_length dt).
    skip_piece (length_float_bytes fs).
    rewrite sub_bytes_here by apply V3_bytes_length. apply V3_roundtrip.
  - skip_piece (length_le_bytes 4 ts). skip_piece (RecordDateTime_bytes_length dt).
    skip_piece (length_float_bytes fs). skip_piece (V3_bytes_length pk).
    rewrite sub_bytes_here by apply V3_bytes_length. apply V3_roundtrip.
  - skip_piece (length_le_bytes 4 ts). skip_piece (RecordDateTime_bytes_length dt).
    skip_piece (length_float_bytes fs). skip_piece (V3_bytes_length pk).
    skip_piece (V3_bytes_length mx).
    rewrite sub_bytes_here by apply V3_bytes_length. apply V3_roundtrip.
  - skip_piece (length_le_bytes 4 ts). skip_piece (RecordDateTime_bytes_length dt).
    skip_piece (length_float_bytes fs). skip_piece (V3_bytes_length pk).
    skip_piece (V3_bytes_length mx). skip_piece (V3_bytes_length mn).
    rewrite sub_bytes_here by apply V3_bytes_length. apply V3_roundtrip.
  - skip_piece (length_le_bytes 4 ts). skip_piece (RecordDateTime_bytes_length dt).
    skip_piece (length_float_bytes fs). skip_piece (V3_bytes_length pk).
    skip_piece (V3_bytes_length mx). skip_piece (V3_bytes_length mn).
    skip_piece (V3_bytes_length mean).
    rewrite sub_bytes_last by apply V3_bytes_length. apply V3_roundtrip.
Qed.

Lemma floats_bytes_length (a : list float) :
  length (floats_bytes a) = (4 * length a)%nat.
Proof.
  unfold floats_bytes. induction a as [|x a IH]; [reflexivity|].
  cbn [map concat length]. rewrite length_app, IH, length_float_bytes. lia.
Qed.

Lemma floats_roundtrip (a : list float) (r : list byte) :
  floats_of_bytes (length a) (floats_bytes a ++ r) = a.
Proof.
  unfold floats_bytes. induction a as [|x a IH]; [reflexivity|].
  cbn [map concat length floats_of_bytes]. rewrite <- app_assoc.
  rewrite take_app_length' by (symmetry; apply length_float_bytes).
  rewrite drop_app_length' by (symmetry; apply length_float_bytes).
  rewrite bytes_float_bytes, IH. reflexivity.
Qed.

Lemma array_size_eq : array_size = (4 * Z.to_nat SAMPLES)%nat.
Proof. reflexivity. Qed.

(** Reading a whole array that was written: the array comes back and the
    file position moves past it, whatever the buffer held before. *)
Lemma read_array_written (old a : list float) (r : list byte) :
  length a = Z.to_nat SAMPLES ->
  read_array old (take array_size (floats_bytes a) ++ r) = (a, r).
Proof.
  intros Hlen. unfold read_array, file_read.
  assert (Hb : length (floats_bytes a) = array_size).
  { rewrite floats_bytes_length, Hlen, array_size_eq. reflexivity. }
  rewrite (take_ge (floats_bytes a)) by lia.
  rewrite take_app_length' by (symmetry; exact Hb).
  rewrite drop_app_length' by (symmetry; exact Hb).
  rewrite <- Hlen, floats_roundtrip. reflexivity.
Qed.

End Representation.

(** ** File names *)

Lemma record_filename_distinct_check :
  forallb (fun i =>
    forallb (fun j =>
      if String.eqb (record_filename i) (record_filename j) then i =? j else true)
      (seqZ 0 MAX_RECORDS))
    (seqZ 0 MAX_RECORDS) = true.
Proof. vm_compute. reflexivity. Qed.

(** The [MAX_RECORDS] slots have pairwise different file names. *)
Lemma record_filename_inj (i j : Z) :
  0 <= i < MAX_RECORDS -> 0 <= j < MAX_RECORDS ->
  record_filename i = record_filename j -> i = j.
Proof.
  intros Hi Hj Heq.
  pose proof record_filename_distinct_check as Hc.
  rewrite forallb_forall in Hc.
  assert (Hi' : In i (seqZ 0 MAX_RECORDS)).
  { apply list_elem_of_In, elem_of_seqZ. lia. }
  specialize (Hc i Hi'). rewrite forallb_forall in Hc.
  assert (Hj' : In j (seqZ 0 MAX_RECORDS)).
  { apply list_elem_of_In, elem_of_seqZ. lia. }
  specialize (Hc j Hj'). rewrite Heq, String.eqb_refl in Hc.
  apply Z.eqb_eq, Hc.
Qed.

(** No record file is the cursor file. *)
Lemma record_filename_not_metadata (i : Z) : record_filename i <> METADATA_FILE.
Proof.
  unfold record_filename, snprintf, RECORDS_DIR, METADATA_FILE.
  intros H. cbn [String.append Nat.sub String.substring] in H. discriminate H.
Qed.

(** ** The record store *)

Section Store.
Context {float : Type} `{!FloatOps float} `{!ArduinoFFT float} `{!FloatRepr float}.

Lemma file_read_exact (n : nat) (obj x r : list byte) :
  length x = n -> (length obj <= n)%nat -> file_read n obj (x ++ r) = (x, r).
Proof.
  intros Hx Hobj. unfold file_read.
  rewrite take_app_length' by (symmetry; exact Hx).
  rewrite drop_app_length' by (symmetry; exact Hx).
  rewrite drop_ge by lia. rewrite app_nil_r. reflexivity.
Qed.

(** The statistics loops leave the other fields of [meta] alone. *)
Lemma save_meta_head (now : Z) (l : Live float) :
  timestamp (save_meta now l) = to_unsigned 32 now /\
  rtcTime (save_meta now l) = currentRecordTime l /\
  samplingFreq (save_meta now l) = samplingFrequency l /\
  meta_peak (save_meta now l) = (xM l, yM l, zM l).
Proof.
  set (P := fun m : RecordMeta float =>
              timestamp m = to_unsigned 32 now /\ rtcTime m = currentRecordTime l /\
              samplingFreq m = samplingFrequency l /\ meta_peak m = (xM l, yM l, zM l)).
  enough (HP : P (save_meta now l)) by exact HP.
  unfold save_meta. cbv zeta.
  assert (Hmean : forall v m, P m -> P (set_meta_mean v m)) by (intros v m Hm; exact Hm).
  assert (Hsd : forall v m, P m -> P (set_meta_sd v m)) by (intros v m Hm; exact Hm).
  assert (Hmax : forall g p a m, P m -> P (meta_max_update g p a m)).
  { intros g p a m Hm. unfold meta_max_update. destruct (flt _ _); exact Hm. }
  assert (Hmin : forall g p a m, P m -> P (meta_min_update g p a m)).
  { intros g p a m Hm. unfold meta_min_update. destruct (flt _ _); exact Hm. }
  assert (Hadd : forall g p a m, P m -> P (meta_mean_add g p a m))
    by (intros g p a m Hm; exact Hm).
  assert (Hsq : forall g p a m, P m -> P (meta_sd_add g p a m))
    by (intros g p a m Hm; exact Hm).
  apply Hsd. apply for_loop_invariant.
  - apply Hsd, Hmean. apply for_loop_invariant.
    + repeat split.
    + intros i m _ Hm. unfold save_minmax_body. cbv zeta.
      do 3 apply Hadd. do 3 (apply Hmin, Hmax). exact Hm.
  - intros i m _ Hm. unfold save_sd_body. cbv zeta. do 3 apply Hsq. exact Hm.
Qed.

Lemma wf_save_meta (now : Z) (l : Live float) :
  wf_Live l ->
  0 <= timestamp (save_meta now l) < 2 ^ 32 /\ wf_DateTime (rtcTime (save_meta now l)).
Proof.
  intros Hl. destruct (save_meta_head now l) as (Ht & Hr & _).
  rewrite Ht, Hr. split; [|apply Hl].
  unfold to_unsigned. apply Z.mod_pos_bound. lia.
Qed.

(** What [load_from_file] leaves in the state when the file is a complete
    record file. *)
Lemma load_from_file_written (idx : Z) (meta : RecordMeta float) (l : Live float)
    (s : State float) :
  0 <= timestamp meta < 2 ^ 32 -> wf_DateTime (rtcTime meta) -> wf_Live l ->
  let s' := load_from_file idx (record_file meta l) s in
  live s' = {| currentRecordTime := rtcTime meta;
               samplingFrequency := samplingFreq meta;
               xM := vX (meta_peak meta); yM := vY (meta_peak meta);
               zM := vZ (meta_peak meta);
               accXvec := accXvec l; accYvec := accYvec l; accZvec := accZvec l;
               vRealX := vRealX l; vRealY := vRealY l; vRealZ := vRealZ l |} /\
  stats s' = {| maxV := meta_max meta; minV := meta_min meta;
                meanV := meta_mean meta; sdV := meta_sd meta |} /\
  storage s' = set_currentViewRecord idx (storage s) /\
  LittleFS s' = LittleFS s /\ Rtc s' = Rtc s.
Proof.
  intros Ht Hdt (_ & Hax & Hay & Haz & Hvx & Hvy & Hvz).
  unfold load_from_file, record_file, file_write.
  rewrite app_nil_l, <- !app_assoc.
  rewrite file_read_exact
    by (rewrite ?RecordMeta_bytes_length, ?length_replicate; reflexivity).
  cbv beta iota zeta.
  rewrite RecordMeta_roundtrip by assumption.
  do 5 (rewrite read_array_written by assumption; cbv beta iota zeta).
  rewrite <- (app_nil_r (take array_size (floats_bytes (vRealZ l)))).
  rewrite read_array_written by assumption. cbv beta iota zeta.
  repeat split.
Qed.

(** [loadRecord] changes neither the file system, nor the clock chip, nor
    any storage variable other than [currentViewRecord]. *)
Lemma loadRecord_frame (i : Z) (s : State float) :
  let s' := (loadRecord i s).2 in
  LittleFS s' = LittleFS s /\ Rtc s' = Rtc s /\
  storedRecordCount (storage s') = storedRecordCount (storage s) /\
  oldestRecordIndex (storage s') = oldestRecordIndex (storage s) /\
  newestRecordIndex (storage s') = newestRecordIndex (storage s) /\
  storageReady (storage s') = storageReady (storage s).
Proof.
  unfold loadRecord.
  destruct (negb (storageReady (storage s)) || (i <? 0)
            || (storedRecordCount (storage s) =? 0)); [repeat split|].
  cbv zeta. destruct (LittleFS s !! _) as [file|]; [|repeat split].
  cbn [snd]. unfold load_from_file.
  destruct (file_read _ _ file) as [mb f0].
  destruct (read_array _ f0) as [ax f1]. destruct (read_array _ f1) as [ay f2].
  destruct (read_array _ f2) as [az f3]. destruct (read_array _ f3) as [vx f4].
  destruct (read_array _ f4) as [vy f5]. destruct (read_array _ f5) as [vz f6].
  repeat split.
Qed.

(** *** The ring cursors *)

Lemma next_record_index_spec (st : Storage) :
  ring_inv st ->
  let st' := next_record_index st in
  ring_inv st' /\
  0 <= newestRecordIndex st' < MAX_RECORDS /\
  1 <= storedRecordCount st' /\
  newestRecordIndex st' = (newestRecordIndex st + 1) mod MAX_RECORDS /\
  c_rem (oldestRecordIndex st' + (storedRecordCount st' - 1)) MAX_RECORDS
  = newestRecordIndex st' /\
  currentViewRecord st' = currentViewRecord st /\
  storageReady st' = storageReady st /\
  (storedRecordCount st < MAX_RECORDS ->
     oldestRecordIndex st' = oldestRecordIndex st /\
     storedRecordCount st' = storedRecordCount st + 1) /\
  (storedRecordCount st = MAX_RECORDS ->
     oldestRecordIndex st' = (oldestRecordIndex st + 1) mod MAX_RECORDS /\
     storedRecordCount st' = MAX_RECORDS).
Proof.
  destruct st as [cnt view old new ready].
  unfold ring_inv, next_record_index, c_rem, MAX_RECORDS.
  cbn [storedRecordCount currentViewRecord oldestRecordIndex newestRecordIndex
       storageReady set_newestRecordIndex set_oldestRecordIndex set_storedRecordCount].
  intros (Hc & Ho & Hn & Hrel).
  rewrite (Z.rem_mod_nonneg (new + 1) 30) by lia.
  destruct (30 <=? cnt) eqn:Hfull;
    cbn [storedRecordCount currentViewRecord oldestRecordIndex newestRecordIndex
         storageReady set_newestRecordIndex set_oldestRecordIndex set_storedRecordCount].
  - apply Z.leb_le in Hfull.
    rewrite !(Z.rem_mod_nonneg (old + 1) 30) by lia.
    rewrite Z.rem_mod_nonneg by (try apply Z.add_nonneg_nonneg;
                                  try apply Z.mod_pos_bound; lia).
    repeat split; try lia; try (apply Z.mod_pos_bound; lia);
      revert Hrel; Z.div_mod_to_equations; lia.
  - apply Z.leb_gt in Hfull.
    rewrite Z.rem_mod_nonneg by lia.
    repeat split; try lia; try (apply Z.mod_pos_bound; lia);
      revert Hrel; Z.div_mod_to_equations; lia.
Qed.

(** *** [saveCurrentRecord], case by case *)

Lemma saveCurrentRecord_success (env : Env) (s : State float) :
  storageReady (storage s) = true ->
  can_write env (record_filename (newestRecordIndex (next_record_index (storage s))))
  = true ->
  let meta := save_meta (millis env) (live s) in
  let name := record_filename (newestRecordIndex (next_record_index (storage s))) in
  let r := saveCurrentRecord env s in
  r.1 = true /\
  storage r.2 = next_record_index (storage s) /\
  live r.2 = live s /\
  stats r.2 = {| maxV := meta_max meta; minV := meta_min meta;
                 meanV := meta_mean meta; sdV := meta_sd meta |} /\
  LittleFS r.2 !! name = Some (record_file meta (live s)) /\
  (forall other, other <> name -> other <> METADATA_FILE ->
     LittleFS r.2 !! other = LittleFS s !! other) /\
  Rtc r.2 = Rtc s /\ spectro r.2 = spectro s.
Proof.
  intros Hready Hw. unfold saveCurrentRecord. rewrite Hready. cbn [negb]. cbv zeta.
  cbn [storage set_storage]. rewrite Hw. cbn [negb].
  unfold saveStorageMetadata.
  destruct (can_write env METADATA_FILE);
    cbn [fst snd storage live stats spectro LittleFS Rtc Serial set_storage set_live
         set_stats set_LittleFS set_Serial Serial_print Serial_println printDateTime];
    repeat split.
  - rewrite lookup_insert_ne by (apply not_eq_sym, record_filename_not_metadata).
    apply lookup_insert_eq.
  - intros other Hne Hnm.
    rewrite lookup_insert_ne by (apply not_eq_sym, Hnm).
    apply lookup_insert_ne, not_eq_sym, Hne.
  - apply lookup_insert_eq.
  - intros other Hne Hnm. apply lookup_insert_ne, not_eq_sym, Hne.
Qed.

Lemma saveCurrentRecord_failure (env : Env) (s : State float) :
  storageReady (storage s) = true ->
  can_write env (record_filename (newestRecordIndex (next_record_index (storage s))))
  = false ->
  let r := saveCurrentRecord env s in
  r.1 = false /\
  storage r.2 = next_record_index (storage s) /\
  LittleFS r.2 = LittleFS s /\ live r.2 = live s.
Proof.
  intros Hready Hw. unfold saveCurrentRecord. rewrite Hready. cbn [negb]. cbv zeta.
  cbn [storage set_storage]. rewrite Hw. repeat split.
Qed.

(** *** [loadRecord] of a complete record file *)

Lemma loadRecord_success (i : Z) (meta : RecordMeta float) (l : Live float)
    (s : State float) :
  storageReady (storage s) = true ->
  0 <= i < storedRecordCount (storage s) ->
  LittleFS s !! record_filename (c_rem (oldestRecordIndex (storage s) + i) MAX_RECORDS)
  = Some (record_file meta l) ->
  loadRecord i s = (true, load_from_file i (record_file meta l) s).
Proof.
  intros Hready Hi Hfile. unfold loadRecord. rewrite Hready. cbn [negb orb].
  replace (i <? 0) with false by (symmetry; apply Z.ltb_ge; lia).
  replace (storedRecordCount (storage s) =? 0) with false
    by (symmetry; apply Z.eqb_neq; lia).
  cbn [orb]. cbv zeta.
  replace (storedRecordCount (storage s) <=? i) with false
    by (symmetry; apply Z.leb_gt; lia).
  rewrite Hfile. reflexivity.
Qed.

(** A record that was saved from the capture [l] loads back as [l]. *)
Lemma load_saved (idx now : Z) (l : Live float) (s : State float) :
  wf_Live l ->
  let meta := save_meta now l in
  let s' := load_from_file idx (record_file meta l) s in
  live s' = l /\
  stats s' = {| maxV := meta_max meta; minV := meta_min meta;
                meanV := meta_mean meta; sdV := meta_sd meta |} /\
  storage s' = set_currentViewRecord idx (storage s) /\
  LittleFS s' = LittleFS s /\ Rtc s' = Rtc s.
Proof.
  intros Hl. cbv zeta.
  destruct (wf_save_meta now l Hl) as [Ht Hdt].
  destruct (load_from_file_written idx (save_meta now l) l s Ht Hdt Hl)
    as (Hlive & Hrest).
  split; [|exact Hrest].
  rewrite Hlive. destruct (save_meta_head now l) as (_ & Hr & Hf & Hp).
  rewrite Hr, Hf, Hp. destruct l; reflexivity.
Qed.

(** Appending to a store whose records occupy slots [0 .. k-1], while
    there is room: the new records take the next slots in order. *)
Lemma append_all_fill (ers : list (Env * Live float)) :
  forall (k : Z) (s : State float),
  storageReady (storage s) = true ->
  Forall (fun er => forall name, can_write er.1 name = true) ers ->
  0 <= k -> k + Z.of_nat (length ers) <= MAX_RECORDS ->
  storedRecordCount (storage s) = k ->
  oldestRecordIndex (storage s) = 0 ->
  newestRecordIndex (storage s) = k - 1 ->
  let sf := append_all ers s in
  storageReady (storage sf) = true /\
  storedRecordCount (storage sf) = k + Z.of_nat (length ers) /\
  oldestRecordIndex (storage sf) = 0 /\
  newestRecordIndex (storage sf) = k + Z.of_nat (length ers) - 1 /\
  (forall (j : nat) er, ers !! j = Some er ->
     LittleFS sf !! record_filename (k + Z.of_nat j)
     = Some (record_file (save_meta (millis er.1) er.2) er.2)) /\
  (forall j, 0 <= j < k ->
     LittleFS sf !! record_filename j = LittleFS s !! record_filename j).
Proof.
  induction ers as [|er ers IH]; intros k s Hready Hw Hk Hroom Hcnt Hold Hnew.
  - unfold append_all. cbn [fold_left length]. repeat split; try assumption; try lia.
    intros j er Hj. rewrite lookup_nil in Hj. discriminate Hj.
  - cbn [length] in Hroom. apply Forall_cons in Hw as [Hw1 Hw].
    assert (Hinv : ring_inv (storage (set_live er.2 s))).
    { cbn [storage set_live]. unfold ring_inv, MAX_RECORDS in *.
      rewrite Hcnt, Hold, Hnew. repeat split; try lia. f_equal. lia. }
    pose proof (next_record_index_spec _ Hinv) as Hstep. cbv zeta in Hstep.
    destruct Hstep as (_ & _ & _ & Hn' & _ & _ & Hr' & Hlt & _).
    cbn [storage set_live] in Hn', Hr', Hlt.
    assert (Hroom' : storedRecordCount (storage s) < MAX_RECORDS)
      by (unfold MAX_RECORDS in *; lia).
    destruct (Hlt Hroom') as [Ho' Hc'].
    rewrite Hnew in Hn'. replace (k - 1 + 1) with k in Hn' by lia.
    rewrite Z.mod_small in Hn' by (unfold MAX_RECORDS in *; lia).
    pose proof (saveCurrentRecord_success er.1 (set_live er.2 s)) as Hsave.
    cbn [storage set_live live LittleFS] in Hsave.
    specialize (Hsave Hready (Hw1 _)). cbv zeta in Hsave.
    rewrite Hn' in Hsave.
    destruct Hsave as (_ & Hst & _ & _ & Hfile & Hother & _).
    cbv zeta.
    change (append_all (er :: ers) s) with (append_all ers (append er s)).
    unfold append.
    set (s1 := (saveCurrentRecord er.1 (set_live er.2 s)).2) in *.
    assert (Hready1 : storageReady (storage s1) = true).
    { rewrite Hst, Hr'. exact Hready. }
    specialize (IH (k + 1) s1 Hready1 Hw ltac:(lia) ltac:(lia)
                  ltac:(rewrite Hst, Hc', Hcnt; reflexivity)
                  ltac:(rewrite Hst, Ho', Hold; reflexivity)
                  ltac:(rewrite Hst, Hn'; lia)).
    cbv zeta in IH.
    destruct IH as (Hrf & Hcf & Hof & Hnf & Hfiles & Hkeep).
    cbn [length].
    split; [exact Hrf|]. split; [lia|]. split; [exact Hof|]. split; [lia|]. split.
    + intros [|j] er' Hj.
      * cbn in Hj. injection Hj as <-.
        replace (k + Z.of_nat 0) with k by lia.
        rewrite Hkeep by lia. exact Hfile.
      * cbn in Hj. specialize (Hfiles j er' Hj).
        replace (k + Z.of_nat (S j)) with (k + 1 + Z.of_nat j) by lia.
        exact Hfiles.
    + intros j Hj. rewrite Hkeep by lia. apply Hother.
      * intros Heq. apply record_filename_inj in Heq;
          unfold MAX_RECORDS in *; lia.
      * apply record_filename_not_metadata.
Qed.

(** C5 (round trip).  After a successful [saveCurrentRecord] the record
    can be read back from the flash: in any later state [later] that has
    the file system and the ring cursors the save left, whatever its
    buffers, statistics, spectrogram and view index are, loading the
    logical index [count - 1] succeeds and puts exactly the saved capture
    into the buffers (time stamp, sampling frequency, peaks, raw samples
    and spectra), together with the statistics stored with it; the header
    of the file decodes to the metadata that was written. *)
Theorem save_then_load_roundtrip (env : Env) (s later : State float) :
  storageReady (storage s) = true ->
  ring_inv (storage s) ->
  wf_Live (live s) ->
  can_write env (record_filename (newestRecordIndex (next_record_index (storage s))))
  = true ->
  let saved := saveCurrentRecord env s in
  let meta := save_meta (millis env) (live s) in
  LittleFS later = LittleFS saved.2 ->
  storageReady (storage later) = true ->
  storedRecordCount (storage later) = storedRecordCount (storage saved.2) ->
  oldestRecordIndex (storage later) = oldestRecordIndex (storage saved.2) ->
  let loaded := loadRecord (storedRecordCount (storage later) - 1) later in
  saved.1 = true /\ loaded.1 = true /\
  live loaded.2 = live s /\
  stats loaded.2 = {| maxV := meta_max meta; minV := meta_min meta;
                      meanV := meta_mean meta; sdV := meta_sd meta |} /\
  stats loaded.2 = stats saved.2 /\
  exists file,
    LittleFS later !! record_filename (newestRecordIndex (storage saved.2))
    = Some file /\
    RecordMeta_of_bytes (take sizeof_RecordMeta file) = meta.
Proof.
  intros Hready Hinv Hl Hw. cbv zeta. intros Hfs Hready' Hcount Hold.
  destruct (saveCurrentRecord_success env s Hready Hw)
    as (Hok & Hst & Hlive & Hstats & Hfile & _).
  destruct (next_record_index_spec _ Hinv)
    as (_ & Hnr & Hc1 & _ & Hslot & _ & Hr' & _).
  set (s1 := (saveCurrentRecord env s).2) in *.
  assert (Hload : loadRecord (storedRecordCount (storage later) - 1) later
                  = (true, load_from_file (storedRecordCount (storage later) - 1)
                             (record_file (save_meta (millis env) (live s)) (live s))
                             later)).
  { apply loadRecord_success.
    - exact Hready'.
    - rewrite Hcount, Hst. lia.
    - rewrite Hfs, Hold, Hcount, Hst, Hslot. exact Hfile. }
  rewrite Hload. cbn [fst snd].
  destruct (load_saved (storedRecordCount (storage later) - 1) (millis env) (live s)
              later Hl)
    as (Hl' & Hs' & _).
  split; [exact Hok|]. split; [reflexivity|]. split; [exact Hl'|].
  split; [exact Hs'|]. split; [rewrite Hs', Hstats; reflexivity|].
  exists (record_file (save_meta (millis env) (live s)) (live s)).
  split; [rewrite Hfs, Hst; exact Hfile|].
  unfold record_file, file_write. rewrite app_nil_l, <- !app_assoc.
  rewrite take_app_length' by (symmetry; apply RecordMeta_bytes_length).
  destruct (wf_save_meta (millis env) (live s) Hl) as [Ht Hdt].
  apply RecordMeta_roundtrip; assumption.
Qed.

(** C4 (ring invariant and eviction).  A successful append to a store that
    is not full leaves [oldestRecordIndex], advances [newestRecordIndex] by
    one modulo [MAX_RECORDS] and increments the count; to a full store it
    advances both indices by one modulo [MAX_RECORDS] and keeps the count.
    Consequently [MAX_RECORDS + 1] appends to an empty store leave
    [MAX_RECORDS] records, and logical index 0 then loads the second
    capture that was appended. *)
Theorem append_ring_eviction :
  (forall (env : Env) (s : State float),
     storageReady (storage s) = true ->
     ring_inv (storage s) ->
     can_write env (record_filename (newestRecordIndex (next_record_index (storage s))))
     = true ->
     let st := storage s in
     let st' := storage (saveCurrentRecord env s).2 in
     (saveCurrentRecord env s).1 = true /\
     newestRecordIndex st' = (newestRecordIndex st + 1) mod MAX_RECORDS /\
     (storedRecordCount st < MAX_RECORDS ->
        oldestRecordIndex st' = oldestRecordIndex st /\
        storedRecordCount st' = storedRecordCount st + 1) /\
     (storedRecordCount st = MAX_RECORDS ->
        oldestRecordIndex st' = (oldestRecordIndex st + 1) mod MAX_RECORDS /\
        storedRecordCount st' = MAX_RECORDS)) /\
  (forall (ers : list (Env * Live float)) (s0 : State float),
     Z.of_nat (length ers) = MAX_RECORDS + 1 ->
     Forall (fun er => forall name, can_write er.1 name = true) ers ->
     Forall (fun er => wf_Live er.2) ers ->
     storageReady (storage s0) = true ->
     storedRecordCount (storage s0) = 0 ->
     oldestRecordIndex (storage s0) = 0 ->
     newestRecordIndex (storage s0) = -1 ->
     let sf := append_all ers s0 in
     storedRecordCount (storage sf) = MAX_RECORDS /\
     exists second, ers !! 1%nat = Some second /\
       (loadRecord 0 sf).1 = true /\
       live (loadRecord 0 sf).2 = second.2).
Proof.
  split.
  - intros env s Hready Hinv Hw. cbv zeta.
    destruct (saveCurrentRecord_success env s Hready Hw) as (Hok & Hst & _).
    destruct (next_record_index_spec _ Hinv)
      as (_ & _ & _ & Hn & _ & _ & _ & Hlt & Hfull).
    rewrite Hst. auto.
  - intros ers s0 Hlen Hw Hwf Hready Hc0 Ho0 Hn0.
    destruct (exists_last (l := ers)) as (front & last & ->).
    { intros ->. cbn in Hlen. unfold MAX_RECORDS in Hlen. lia. }
    rewrite length_app in Hlen. cbn [length] in Hlen.
    apply Forall_app in Hw as [Hwfront Hwlast].
    apply Forall_app in Hwf as [Hwffront _].
    apply Forall_cons in Hwlast as [Hwlast _].
    assert (Hfront : Z.of_nat (length front) = MAX_RECORDS) by lia.
    assert (Hroom : 0 + Z.of_nat (length front) <= MAX_RECORDS) by lia.
    assert (Hn0' : newestRecordIndex (storage s0) = 0 - 1) by lia.
    pose proof (append_all_fill front 0 s0 Hready Hwfront (Z.le_refl 0) Hroom
                  Hc0 Ho0 Hn0') as Hfill.
    cbv zeta in Hfill. destruct Hfill as (Hr1 & Hc1 & Ho1 & Hn1 & Hfiles & _).
    cbv zeta. unfold append_all. rewrite fold_left_app. cbn [fold_left].
    fold (append_all front s0). set (s1 := append_all front s0) in *.
    destruct (lookup_lt_is_Some_2 front 1) as [second Hsecond].
    { unfold MAX_RECORDS in Hfront. lia. }
    specialize (Hfiles 1%nat second Hsecond).
    assert (Hinv : ring_inv (storage (set_live last.2 s1))).
    { cbn [storage set_live]. unfold ring_inv. rewrite Hc1, Ho1, Hn1, Hfront.
      unfold MAX_RECORDS. repeat split; try lia. }
    pose proof (next_record_index_spec _ Hinv) as Hstep. cbv zeta in Hstep.
    cbn [storage set_live] in Hstep.
    destruct Hstep as (_ & _ & _ & Hn' & _ & _ & Hr' & _ & Hfull).
    destruct Hfull as [Ho' Hc']; [rewrite Hc1; lia|].
    rewrite Hn1, Hfront in Hn'. rewrite Ho1 in Ho'.
    replace (0 + MAX_RECORDS - 1 + 1) with (MAX_RECORDS - 1 + 1) in Hn' by lia.
    replace ((MAX_RECORDS - 1 + 1) mod MAX_RECORDS) with 0 in Hn' by reflexivity.
    replace ((0 + 1) mod MAX_RECORDS) with 1 in Ho' by reflexivity.
    pose proof (saveCurrentRecord_success last.1 (set_live last.2 s1)) as Hsave.
    cbn [storage set_live live LittleFS] in Hsave.
    specialize (Hsave Hr1 (Hwlast _)). cbv zeta in Hsave.
    rewrite Hn' in Hsave. destruct Hsave as (_ & Hst & _ & _ & _ & Hother & _).
    unfold append. set (sf := (saveCurrentRecord last.1 (set_live last.2 s1)).2) in *.
    split; [rewrite Hst; exact Hc'|].
    exists second. split.
    { rewrite lookup_app_l; [exact Hsecond|]. unfold MAX_RECORDS in Hfront. lia. }
    assert (Hload : loadRecord 0 sf
                    = (true, load_from_file 0
                               (record_file (save_meta (millis second.1) second.2) second.2)
                               sf)).
    { apply loadRecord_success.
      - rewrite Hst, Hr'. exact Hr1.
      - rewrite Hst, Hc'. unfold MAX_RECORDS. lia.
      - rewrite Hst, Ho'. change (c_rem (1 + 0) MAX_RECORDS) with 1.
        rewrite Hother.
        + exact Hfiles.
        + intros Heq. apply record_filename_inj in Heq; unfold MAX_RECORDS; lia.
        + apply record_filename_not_metadata. }
    rewrite Hload. cbn [fst snd]. split; [reflexivity|].
    apply load_saved.
    rewrite Forall_forall in Hwffront. apply Hwffront.
    eapply list_elem_of_lookup_2, Hsecond.
Qed.

(** C1 (as amended).  [loadRecord] fails, leaving the state as it was, when
    the storage is not ready, the index is negative or the store is empty.
    On a ready, non-empty store an index at or beyond the count is not
    refused: it is replaced by [count - 1], so the call is the load of the
    newest record.  It then returns [true] with that record loaded when
    the file of the record can be opened, and [false] when it cannot. *)
Theorem loadRecord_index_handling (i : Z) (s : State float) :
  (storageReady (storage s) = false \/ i < 0 \/ storedRecordCount (storage s) = 0 ->
     loadRecord i s = (false, s)) /\
  (0 < storedRecordCount (storage s) <= i ->
     loadRecord i s = loadRecord (storedRecordCount (storage s) - 1) s) /\
  (storageReady (storage s) = true -> 0 < storedRecordCount (storage s) <= i ->
   let newest := storedRecordCount (storage s) - 1 in
   let name := record_filename
                 (c_rem (oldestRecordIndex (storage s) + newest) MAX_RECORDS) in
   (forall file, LittleFS s !! name = Some file ->
      loadRecord i s = (true, load_from_file newest file s)) /\
   (LittleFS s !! name = None ->
      (loadRecord i s).1 = false /\
      same_but_Serial s (loadRecord i s).2)).
Proof.
  assert (Hclamp : 0 < storedRecordCount (storage s) <= i ->
            loadRecord i s = loadRecord (storedRecordCount (storage s) - 1) s).
  { intros [Hpos Hle]. unfold loadRecord.
    replace (i <? 0) with false by (symmetry; apply Z.ltb_ge; lia).
    replace (storedRecordCount (storage s) - 1 <? 0) with false
      by (symmetry; apply Z.ltb_ge; lia).
    destruct (negb (storageReady (storage s)) || false
              || (storedRecordCount (storage s) =? 0)); [reflexivity|].
    cbv zeta.
    replace (storedRecordCount (storage s) <=? i) with true
      by (symmetry; apply Z.leb_le; lia).
    replace (storedRecordCount (storage s) <=? storedRecordCount (storage s) - 1)
      with false by (symmetry; apply Z.leb_gt; lia).
    reflexivity. }
  split; [|split; [exact Hclamp|]].
  - intros H. unfold loadRecord.
    destruct H as [Hr | [Hi | Hc]].
    + rewrite Hr. reflexivity.
    + apply Z.ltb_lt in Hi. rewrite Hi, orb_true_r. reflexivity.
    + apply Z.eqb_eq in Hc. rewrite Hc, orb_true_r. reflexivity.
  - intros Hready Hi. cbv zeta. rewrite (Hclamp Hi).
    unfold loadRecord. rewrite Hready. cbn [negb orb].
    replace (storedRecordCount (storage s) - 1 <? 0) with false
      by (symmetry; apply Z.ltb_ge; lia).
    replace (storedRecordCount (storage s) =? 0) with false
      by (symmetry; apply Z.eqb_neq; lia).
    cbn [orb]. cbv zeta.
    replace (storedRecordCount (storage s) <=? storedRecordCount (storage s) - 1)
      with false by (symmetry; apply Z.leb_gt; lia).
    split.
    + intros file Hfile. rewrite Hfile. reflexivity.
    + intros Hnone. rewrite Hnone. cbn [fst snd]. split; [reflexivity|].
      repeat split.
Qed.

(** C2 (as amended).  The record file written by a successful
    [saveCurrentRecord] is the [sizeof(RecordMeta)]-byte header, followed
    by the three raw arrays and then by the three spectrum arrays, each
    array whole ([SAMPLES] floats, [4 * SAMPLES] bytes), with nothing in
    between and no length field: [76 + 6 * 4 * SAMPLES] bytes in all. *)
Theorem record_file_layout (env : Env) (s : State float) :
  storageReady (storage s) = true ->
  can_write env (record_filename (newestRecordIndex (next_record_index (storage s))))
  = true ->
  wf_Live (live s) ->
  let meta := save_meta (millis env) (live s) in
  let saved := (saveCurrentRecord env s).2 in
  LittleFS saved !! record_filename (newestRecordIndex (storage saved))
  = Some (RecordMeta_bytes meta ++
          floats_bytes (accXvec (live s)) ++ floats_bytes (accYvec (live s)) ++
          floats_bytes (accZvec (live s)) ++
          floats_bytes (vRealX (live s)) ++ floats_bytes (vRealY (live s)) ++
          floats_bytes (vRealZ (live s))) /\
  Z.of_nat (length (RecordMeta_bytes meta)) = 76 /\
  Forall (fun a => Z.of_nat (length (floats_bytes a)) = 4 * SAMPLES)
    [accXvec (live s); accYvec (live s); accZvec (live s);
     vRealX (live s); vRealY (live s); vRealZ (live s)] /\
  Z.of_nat (length (record_file meta (live s))) = 76 + 6 * (4 * SAMPLES).
Proof.
  intros Hready Hw (_ & Hax & Hay & Haz & Hvx & Hvy & Hvz). cbv zeta.
  destruct (saveCurrentRecord_success env s Hready Hw) as (_ & Hst & _ & _ & Hfile & _).
  assert (Hlen : forall a : list float, length a = Z.to_nat SAMPLES ->
                 length (floats_bytes a) = array_size).
  { intros a Ha. rewrite floats_bytes_length, Ha. reflexivity. }
  assert (Hfull : forall a : list float, length a = Z.to_nat SAMPLES ->
                  take array_size (floats_bytes a) = floats_bytes a).
  { intros a Ha. apply take_ge. rewrite Hlen by exact Ha. lia. }
  assert (Hrec : record_file (save_meta (millis env) (live s)) (live s)
                 = RecordMeta_bytes (save_meta (millis env) (live s)) ++
                   floats_bytes (accXvec (live s)) ++ floats_bytes (accYvec (live s)) ++
                   floats_bytes (accZvec (live s)) ++
                   floats_bytes (vRealX (live s)) ++ floats_bytes (vRealY (live s)) ++
                   floats_bytes (vRealZ (live s))).
  { unfold record_file, file_write. rewrite app_nil_l, <- !app_assoc.
    rewrite !Hfull by assumption. reflexivity. }
  split; [rewrite Hst, Hfile, Hrec; reflexivity|].
  split; [rewrite RecordMeta_bytes_length; reflexivity|].
  split.
  - repeat constructor; rewrite Hlen by assumption; reflexivity.
  - rewrite Hrec, !length_app, RecordMeta_bytes_length, !Hlen by assumption.
    reflexivity.
Qed.

(** *** Export *)

Lemma same_but_Serial_refl (s : State float) : same_but_Serial s s.
Proof. repeat split. Qed.

Lemma same_but_Serial_trans (s1 s2 s3 : State float) :
  same_but_Serial s1 s2 -> same_but_Serial s2 s3 -> same_but_Serial s1 s3.
Proof.
  unfold same_but_Serial.
  intros (H1 & H2 & H3 & H4 & H5 & H6) (K1 & K2 & K3 & K4 & K5 & K6).
  rewrite K1, K2, K3, K4, K5, K6. repeat split; assumption.
Qed.

Lemma Serial_print_same (x : string) (s0 s : State float) :
  same_but_Serial s0 s -> same_but_Serial s0 (Serial_print x s).
Proof. intros H. exact H. Qed.

Lemma Serial_println_same (x : string) (s0 s : State float) :
  same_but_Serial s0 s -> same_but_Serial s0 (Serial_println x s).
Proof. intros H. exact H. Qed.

Ltac serial_frame :=
  repeat first [ apply Serial_print_same | apply Serial_println_same
               | apply (Serial_print_same (formatDateTime _)) ].

(** After its call to [loadRecord], the body of the export loop only prints. *)
Lemma export_record_same (r : Z) (s : State float) :
  same_but_Serial (loadRecord r s).2 (export_record r s).
Proof.
  unfold export_record. cbv zeta. unfold printDateTime.
  apply for_loop_invariant; [|intros i x _ Hx; serial_frame; exact Hx].
  apply Serial_println_same.
  apply for_loop_invariant; [|intros i x _ Hx; serial_frame; exact Hx].
  serial_frame. apply same_but_Serial_refl.
Qed.

(** The export loop keeps the file system and the ring cursors. *)
Lemma export_loop_frame (n : Z) (s : State float) :
  let s' := for_loop 0 n export_record s in
  LittleFS s' = LittleFS s /\
  storedRecordCount (storage s') = storedRecordCount (storage s) /\
  oldestRecordIndex (storage s') = oldestRecordIndex (storage s) /\
  storageReady (storage s') = storageReady (storage s).
Proof.
  cbv zeta. apply for_loop_invariant; [repeat split|].
  intros i x _ (Hfs & Hc & Ho & Hr).
  destruct (export_record_same i x) as (Hst & _ & _ & _ & Hfs' & _).
  destruct (loadRecord_frame i x) as (Lfs & _ & Lc & Lo & _ & Lr).
  rewrite Hst, Hfs', Lfs, Lc, Lo, Lr. auto.
Qed.

(** C10 (export from the live view).  When the newest stored record is a
    complete record file holding the capture [l] with header [meta], an
    export started from the live view ([currentViewRecord = -1]) ends with
    the six working arrays, the sampling frequency and the peaks of that
    record in the live variables: only the view index (still -1) and
    [currentRecordTime] are put back. *)
Theorem export_leaves_last_record_in_buffers
    (s : State float) (meta : RecordMeta float) (l : Live float) :
  storageReady (storage s) = true ->
  currentViewRecord (storage s) = -1 ->
  1 <= storedRecordCount (storage s) ->
  LittleFS s !! record_filename
    (c_rem (oldestRecordIndex (storage s) + (storedRecordCount (storage s) - 1))
       MAX_RECORDS)
  = Some (record_file meta l) ->
  0 <= timestamp meta < 2 ^ 32 -> wf_DateTime (rtcTime meta) -> wf_Live l ->
  let s' := exportAllRecordsSerial s in
  accXvec (live s') = accXvec l /\ accYvec (live s') = accYvec l /\
  accZvec (live s') = accZvec l /\ vRealX (live s') = vRealX l /\
  vRealY (live s') = vRealY l /\ vRealZ (live s') = vRealZ l /\
  samplingFrequency (live s') = samplingFreq meta /\
  (xM (live s'), yM (live s'), zM (live s')) = meta_peak meta /\
  currentViewRecord (storage s') = -1 /\
  currentRecordTime (live s') = currentRecordTime (live s).
Proof.
  intros Hready Hview Hcount Hfile Ht Hdt Hl. cbv zeta.
  unfold exportAllRecordsSerial. cbv zeta. unfold printDateTime, getRtcTime.
  cbn [storage live Serial_print Serial_println set_Serial].
  rewrite Hview. cbn [Z.leb Z.compare].
  set (s0 := Serial_println EmptyString
               (Serial_print (formatDateTime _) (Serial_print "EXPORT_TIME:" _))).
  set (n := storedRecordCount (storage s)) in *.
  assert (Hsplit : for_loop 0 n export_record s0
                   = export_record (n - 1) (for_loop 0 (n - 1) export_record s0)).
  { rewrite <- for_loop_last by lia. f_equal. lia. }
  rewrite Hsplit.
  set (pre := for_loop 0 (n - 1) export_record s0).
  destruct (export_loop_frame (n - 1) s0) as (Pfs & Pc & Po & Pr).
  fold pre in Pfs, Pc, Po, Pr.
  change (LittleFS s0) with (LittleFS s) in Pfs.
  change (storage s0) with (storage s) in Pc, Po, Pr.
  assert (Hload : loadRecord (n - 1) pre
                  = (true, load_from_file (n - 1) (record_file meta l) pre)).
  { apply loadRecord_success.
    - rewrite Pr. exact Hready.
    - rewrite Pc. fold n. lia.
    - rewrite Pfs, Po. exact Hfile. }
  destruct (export_record_same (n - 1) pre) as (_ & Elive & _).
  rewrite Hload in Elive. cbn [snd] in Elive.
  destruct (load_from_file_written (n - 1) meta l pre Ht Hdt Hl) as (Llive & _).
  rewrite Llive in Elive.
  cbn [storage live set_storage set_live set_currentRecordTime set_currentViewRecord
       Serial_println set_Serial currentViewRecord currentRecordTime
       accXvec accYvec accZvec vRealX vRealY vRealZ samplingFrequency xM yM zM].
  rewrite Elive.
  cbn [accXvec accYvec accZvec vRealX vRealY vRealZ samplingFrequency xM yM zM].
  destruct (meta_peak meta) as [[px py] pz]. repeat split.
Qed.

End Store.

(** ** Statistics: the save path and the display path *)


Section Statistics.
Context {float : Type} `{!FloatOps float} `{!ArduinoFFT float}.

















End Statistics.

(** ** The measured sampling frequency *)

(** The partial sums of the deltas telescope. *)
Lemma deltas_telescope (t : list Z) (n : nat) :
  fold_right Z.add 0
    (map (fun i => nth (Z.to_nat (i + 1)) t 0 - nth (Z.to_nat i) t 0)
         (seqZ 0 (Z.of_nat n)))
  = nth n t 0 - nth 0 t 0.
Proof.
  induction n as [|n IH].
  - rewrite seqZ_nil by lia. cbn [map fold_right]. lia.
  - rewrite seqZ_S, map_app, fold_right_app. cbn [map fold_right].
    replace (0 + Z.of_nat n + 1) with (Z.of_nat (S n)) by lia.
    replace (0 + Z.of_nat n) with (Z.of_nat n) by lia.
    rewrite !Nat2Z.id.
    transitivity ((nth (S n) t 0 - nth n t 0)
                  + fold_right Z.add 0
                      (map (fun i => nth (Z.to_nat (i + 1)) t 0 - nth (Z.to_nat i) t 0)
                           (seqZ 0 (Z.of_nat n)))); [|rewrite IH; lia].
    generalize (nth (S n) t 0 - nth n t 0) as d.
    generalize (map (fun i => nth (Z.to_nat (i + 1)) t 0 - nth (Z.to_nat i) t 0)
                    (seqZ 0 (Z.of_nat n))) as l.
    induction l as [|x l IHl]; intros d; cbn [fold_right]; [lia|].
    rewrite IHl. lia.
Qed.

Lemma sum_deltas_telescope (t : list Z) :
  sum_deltas t = nth (Z.to_nat (SAMPLES - 1)) t 0 - nth 0 t 0.
Proof.
  unfold sum_deltas.
  rewrite <- (Z2Nat.id (SAMPLES - 1)) at 1 by (unfold SAMPLES; lia).
  apply deltas_telescope.
Qed.

(** With time stamps that fit a [long] and never decrease, the 32-bit
    accumulation of [loop] never wraps: [dt] is the sum of the deltas. *)
Lemma loop_dt_sum (t : list Z) : timestamps_ok t -> loop_dt t = sum_deltas t.
Proof.
  intros (Hlen & Hrange & Hmono).
  assert (Hnth : forall n : nat, (n < Z.to_nat SAMPLES)%nat -> 0 <= nth n t 0 < 2 ^ 31).
  { intros n Hn. rewrite Forall_forall in Hrange. apply Hrange.
    apply list_elem_of_In, nth_In. lia. }
  assert (Hpart : forall n : nat, (n <= Z.to_nat (SAMPLES - 1))%nat ->
            for_loop 0 (Z.of_nat n)
              (fun i dt => to_signed 32
                 (dt + to_signed 32 (nth (Z.to_nat (i + 1)) t 0 - nth (Z.to_nat i) t 0))) 0
            = nth n t 0 - nth 0 t 0 /\ nth 0 t 0 <= nth n t 0).
  { induction n as [|n IH]; intros Hn.
    - rewrite for_loop_nil by lia. split; lia.
    - destruct IH as [IH Hle]; [lia|].
      replace (Z.of_nat (S n)) with (Z.of_nat n + 1) by lia.
      rewrite for_loop_last by lia. rewrite IH.
      replace (Z.to_nat (Z.of_nat n + 1)) with (S n) by lia.
      rewrite Nat2Z.id.
      pose proof (Hnth 0%nat ltac:(unfold SAMPLES; lia)) as H0.
      pose proof (Hnth n ltac:(unfold SAMPLES in *; lia)) as H1.
      pose proof (Hnth (S n) ltac:(unfold SAMPLES in *; lia)) as H2.
      pose proof (Hmono (Z.of_nat n) ltac:(unfold SAMPLES in *; lia)) as H3.
      replace (Z.to_nat (Z.of_nat n + 1)) with (S n) in H3 by lia.
      rewrite Nat2Z.id in H3.
      rewrite (to_signed_id 32 (nth (S n) t 0 - nth n t 0)) by (cbn; lia).
      rewrite to_signed_id by (cbn; lia). split; lia. }
  unfold loop_dt. rewrite sum_deltas_telescope.
  rewrite <- (Z2Nat.id (SAMPLES - 1)) at 1 by (unfold SAMPLES; lia).
  apply Hpart. lia.
Qed.

(** ** The spectrogram builder *)

Section Spectrogram.
Context {float : Type} `{!FloatOps float} `{!ArduinoFFT float}.

Lemma spectro_bin_body_segments (segReal : list float) (k : Z) (sp : Spectro float) :
  specSegments (spectro_bin_body segReal k sp) = specSegments sp.
Proof.
  unfold spectro_bin_body. cbv zeta.
  repeat match goal with |- context [if ?c then _ else _] => destruct c end;
    reflexivity.
Qed.

Lemma spectro_bins_segments (segReal : list float) (n : Z) (sp : Spectro float) :
  specSegments (for_loop 0 n (spectro_bin_body segReal) sp) = specSegments sp.
Proof.
  apply (for_loop_invariant (fun x => specSegments x = specSegments sp)); [reflexivity|].
  intros i x _ <-. apply spectro_bin_body_segments.
Qed.

(** The segment loop stops on its own: more fuel than the number of
    segments still allowed changes nothing. *)
Lemma spectro_segments_fuel (fuel : nat) :
  forall (samples seg_len seg_max hop : Z) (l : Live float) (start : Z)
         (sp : Spectro float),
  (Z.to_nat (seg_max - specSegments sp) <= fuel)%nat ->
  spectro_segments (S fuel) samples seg_len seg_max hop l start sp
  = spectro_segments fuel samples seg_len seg_max hop l start sp.
Proof.
  induction fuel as [|fuel IH]; intros samples seg_len seg_max hop l start sp Hfuel.
  - cbn [spectro_segments].
    destruct ((start + seg_len <=? samples) && (specSegments sp <? seg_max)) eqn:E;
      [|reflexivity].
    apply andb_true_iff in E as [_ E]. apply Z.ltb_lt in E. lia.
  - cbn [spectro_segments].
    destruct ((start + seg_len <=? samples) && (specSegments sp <? seg_max)) eqn:E;
      [|reflexivity].
    cbv zeta. apply andb_true_iff in E as [_ E]. apply Z.ltb_lt in E.
    change (spectro_segments (S fuel) samples seg_len seg_max hop l (start + hop)
              (set_specSegments
                 (specSegments
                    (for_loop 0 (Z.quot seg_len 2)
                       (spectro_bin_body (segment_spectrum seg_len l start)) sp) + 1)
                 (for_loop 0 (Z.quot seg_len 2)
                    (spectro_bin_body (segment_spectrum seg_len l start)) sp))
            = spectro_segments fuel samples seg_len seg_max hop l (start + hop)
              (set_specSegments
                 (specSegments
                    (for_loop 0 (Z.quot seg_len 2)
                       (spectro_bin_body (segment_spectrum seg_len l start)) sp) + 1)
                 (for_loop 0 (Z.quot seg_len 2)
                    (spectro_bin_body (segment_spectrum seg_len l start)) sp))).
    apply IH. cbn [specSegments set_specSegments].
    rewrite spectro_bins_segments. lia.
Qed.













End Spectrogram.

(** ** Setting the clock from text *)

Lemma length_string_of_list_ascii (l : list ascii) :
  String.length (string_of_list_ascii l) = length l.
Proof. induction l as [|c l IH]; cbn; [|rewrite IH]; reflexivity. Qed.

Lemma length_list_ascii_of_string (s : string) :
  length (list_ascii_of_string s) = String.length s.
Proof. induction s as [|c s IH]; cbn; [|rewrite IH]; reflexivity. Qed.

Lemma skip_space_length (l : list ascii) : (length (skip_space l) <= length l)%nat.
Proof.
  induction l as [|c l IH]; cbn [skip_space length]; [lia|].
  destruct (Ascii.is_space c); cbn [length]; lia.
Qed.

(** Trimming never makes a string longer. *)
Lemma String_trim_length (s : string) :
  (String.length (String_trim s) <= String.length s)%nat.
Proof.
  unfold String_trim.
  rewrite length_string_of_list_ascii, length_rev.
  etransitivity; [apply skip_space_length|]. rewrite length_rev.
  etransitivity; [apply skip_space_length|].
  rewrite length_list_ascii_of_string. lia.
Qed.

Lemma substring_length_le (n m : nat) (s : string) :
  (String.length (String.substring n m s) <= m)%nat.
Proof.
  revert n m. induction s as [|c s IH]; intros n m.
  - destruct n, m; cbn; lia.
  - destruct n as [|n].
    + destruct m as [|m]; cbn [String.substring String.length]; [lia|].
      specialize (IH 0%nat m). lia.
    + cbn [String.substring]. apply IH.
Qed.

(** A field cut out by [substring(from, to)] has at most [to - from]
    characters. *)
Lemma String_substring_length (from to : nat) (s : string) :
  (from <= to)%nat ->
  (String.length (String_substring from to s) <= to - from)%nat.
Proof.
  intros Hle. unfold String_substring.
  replace (to <? from)%nat with false by (symmetry; apply Nat.ltb_ge; lia).
  destruct (String.length s <=? from)%nat; [cbn; lia|].
  destruct (String.length s <? to)%nat eqn:E.
  - apply Nat.ltb_lt in E. etransitivity; [apply substring_length_le|]. lia.
  - apply substring_length_le.
Qed.

Lemma is_nat_digit (c : ascii) (d : nat) : Ascii.is_nat c = Some d -> (d <= 9)%nat.
Proof.
  unfold Ascii.is_nat.
  destruct c as [[] [] [] [] [] [] [] []]; intros [= <-]; lia.
Qed.

(** The digits of a string of [n] characters denote a number below 10^n. *)
Lemma atol_digits_bound (l : list ascii) (acc : Z) :
  0 <= acc ->
  acc <= atol_digits acc l /\
  atol_digits acc l <= (acc + 1) * 10 ^ Z.of_nat (length l) - 1.
Proof.
  revert acc. induction l as [|c l IH]; intros acc Hacc; cbn [atol_digits length].
  - cbn. lia.
  - assert (Hp : 0 < 10 ^ Z.of_nat (length l)) by (apply Z.pow_pos_nonneg; lia).
    replace (Z.of_nat (S (length l))) with (1 + Z.of_nat (length l)) by lia.
    rewrite Z.pow_add_r by lia. change (10 ^ 1) with 10.
    destruct (Ascii.is_nat c) as [d|] eqn:E.
    + apply is_nat_digit in E.
      destruct (IH (10 * acc + Z.of_nat d) ltac:(lia)) as [H1 H2].
      split; [lia|]. nia.
    + split; [lia|]. nia.
Qed.

Lemma atol_bound (l : list ascii) :
  - 10 ^ Z.of_nat (length l) < atol l < 10 ^ Z.of_nat (length l).
Proof.
  unfold atol.
  pose proof (skip_space_length l) as Hs.
  assert (Hmono : forall n m : nat, (n <= m)%nat -> 10 ^ Z.of_nat n <= 10 ^ Z.of_nat m).
  { intros n m Hnm. apply Z.pow_le_mono_r; lia. }
  assert (Hd : forall l' : list ascii, (length l' <= length l)%nat ->
                 0 <= atol_digits 0 l' < 10 ^ Z.of_nat (length l)).
  { intros l' Hl'. destruct (atol_digits_bound l' 0 ltac:(lia)) as [H1 H2].
    specialize (Hmono _ _ Hl'). lia. }
  destruct (skip_space l) as [|c l'] eqn:E.
  - specialize (Hd [] ltac:(cbn; lia)). lia.
  - cbn [length] in Hs.
    pose proof (Hd l' ltac:(lia)) as H1.
    pose proof (Hd (c :: l') ltac:(cbn [length]; lia)) as H2.
    destruct c as [[] [] [] [] [] [] [] []]; lia.
Qed.

Lemma String_toInt_bound (s : string) (n : nat) :
  (String.length s <= n)%nat -> - 10 ^ Z.of_nat n < String_toInt s < 10 ^ Z.of_nat n.
Proof.
  intros Hlen. unfold String_toInt.
  pose proof (atol_bound (list_ascii_of_string s)) as H.
  rewrite length_list_ascii_of_string in H.
  assert (10 ^ Z.of_nat (String.length s) <= 10 ^ Z.of_nat n)
    by (apply Z.pow_le_mono_r; lia).
  lia.
Qed.

(** Narrowing a number of at most four (two) characters to [uint16_t]
    ([uint8_t]) cannot bring it into an accepted range. *)
Lemma narrow16_range (v lo hi : Z) :
  -10000 < v < 10000 -> 0 <= lo -> hi < 10000 ->
  (lo <= to_unsigned 16 v <= hi <-> lo <= v <= hi).
Proof.
  intros Hv Hlo Hhi. unfold to_unsigned. change (2 ^ 16) with 65536.
  Z.div_mod_to_equations. lia.
Qed.

Lemma narrow8_range (v lo hi : Z) :
  -100 < v < 100 -> 0 <= lo -> hi < 100 ->
  (lo <= to_unsigned 8 v <= hi <-> lo <= v <= hi).
Proof.
  intros Hv Hlo Hhi. unfold to_unsigned. change (2 ^ 8) with 256.
  Z.div_mod_to_equations. lia.
Qed.

Lemma text_fields_narrow (timeStr : string) :
  fields_in_range (text_fields timeStr)
  <-> DateTime_in_range (parse_fields (String_trim timeStr)).
Proof.
  unfold text_fields, fields_in_range, DateTime_in_range, parse_fields.
  cbv zeta. cbn [year month day hour minute second].
  set (t := String_trim timeStr).
  pose proof (String_toInt_bound (String_substring 0 4 t) 4
                (String_substring_length 0 4 t ltac:(lia))) as By.
  pose proof (String_toInt_bound (String_substring 5 7 t) 2
                (String_substring_length 5 7 t ltac:(lia))) as Bmo.
  pose proof (String_toInt_bound (String_substring 8 10 t) 2
                (String_substring_length 8 10 t ltac:(lia))) as Bd.
  pose proof (String_toInt_bound (String_substring 11 13 t) 2
                (String_substring_length 11 13 t ltac:(lia))) as Bh.
  pose proof (String_toInt_bound (String_substring 14 16 t) 2
                (String_substring_length 14 16 t ltac:(lia))) as Bmi.
  pose proof (String_toInt_bound (String_substring 17 19 t) 2
                (String_substring_length 17 19 t ltac:(lia))) as Bse.
  change (10 ^ Z.of_nat 4) with 10000 in By.
  change (10 ^ Z.of_nat 2) with 100 in Bmo, Bd, Bh, Bmi, Bse.
  pose proof (narrow16_range _ 2020 2099 By ltac:(lia) ltac:(lia)) as Ny.
  pose proof (narrow8_range _ 1 12 Bmo ltac:(lia) ltac:(lia)) as Nmo.
  pose proof (narrow8_range _ 1 31 Bd ltac:(lia) ltac:(lia)) as Nd.
  pose proof (narrow8_range _ 0 23 Bh ltac:(lia) ltac:(lia)) as Nh.
  pose proof (narrow8_range _ 0 59 Bmi ltac:(lia) ltac:(lia)) as Nmi.
  pose proof (narrow8_range _ 0 59 Bse ltac:(lia) ltac:(lia)) as Nse.
  clear By Bmo Bd Bh Bmi Bse.
  split.
  - intros (Hy & Hmo & Hd & Hh & Hmi & Hse).
    split; [apply Ny; exact Hy|]. split; [apply Nmo; exact Hmo|].
    split; [apply Nd; exact Hd|]. split; [apply Nh; exact Hh|].
    split; [apply Nmi; exact Hmi|apply Nse; exact Hse].
  - intros (Hy & Hmo & Hd & Hh & Hmi & Hse).
    split; [apply Ny; exact Hy|]. split; [apply Nmo; exact Hmo|].
    split; [apply Nd; exact Hd|]. split; [apply Nh; exact Hh|].
    split; [apply Nmi; exact Hmi|apply Nse; exact Hse].
Qed.

Lemma parse_fields_in_range (timeStr : string) :
  fields_in_range (text_fields timeStr) ->
  parse_fields (String_trim timeStr) = DateTime_of_fields (text_fields timeStr).
Proof.
  unfold text_fields, fields_in_range, DateTime_of_fields, parse_fields, to_unsigned.
  cbv zeta. cbn [nth].
  intros (Hy & Hmo & Hd & Hh & Hmi & Hse).
  change (2 ^ 16) with 65536. change (2 ^ 8) with 256.
  f_equal; apply Z.mod_small.
  - clear - Hy. lia.
  - clear - Hmo. lia.
  - clear - Hd. lia.
  - clear - Hh. lia.
  - clear - Hmi. lia.
  - clear - Hse. lia.
Qed.

Lemma to_unsigned_nonneg (w v : Z) : 0 <= w -> 0 <= to_unsigned w v.
Proof.
  intros Hw. unfold to_unsigned. apply Z.mod_pos_bound. apply Z.pow_pos_nonneg; lia.
Qed.

Section Clock.
Context {float : Type} `{!FloatOps float} `{!ArduinoFFT float}.

(** The two ways [parseAndSetTime] ends. *)
Lemma parseAndSetTime_cases (timeStr : string) (s : State float) :
  let t := String_trim timeStr in
  let r := parseAndSetTime timeStr s in
  (storage r.2 = storage s /\ live r.2 = live s /\ LittleFS r.2 = LittleFS s) /\
  ((r.1 = true /\ Rtc r.2 = parse_fields t /\
    (19 <= String.length t)%nat /\ DateTime_in_range (parse_fields t)) \/
   (r.1 = false /\ Rtc r.2 = Rtc s /\
    ((String.length t < 19)%nat \/ ~ DateTime_in_range (parse_fields t)))).
Proof.
  cbv zeta. unfold parseAndSetTime. cbv zeta.
  set (t := String_trim timeStr).
  destruct (String.length t <? 19)%nat eqn:Elen.
  { apply Nat.ltb_lt in Elen.
    split; [repeat split|]. right. split; [reflexivity|]. split; [reflexivity|].
    left. exact Elen. }
  apply Nat.ltb_ge in Elen.
  assert (Ph : 0 <= hour (parse_fields t)) by (apply to_unsigned_nonneg; lia).
  assert (Pmi : 0 <= minute (parse_fields t)) by (apply to_unsigned_nonneg; lia).
  assert (Pse : 0 <= second (parse_fields t)) by (apply to_unsigned_nonneg; lia).
  unfold DateTime_in_range.
  generalize dependent (parse_fields t). intros dt Ph Pmi Pse.
  destruct ((year dt <? 2020) || (2099 <? year dt)) eqn:Cy.
  { apply orb_true_iff in Cy. rewrite Z.ltb_lt, Z.ltb_lt in Cy.
    split; [repeat split|]. right. split; [reflexivity|]. split; [reflexivity|].
    right. intros (G & _). clear - Cy G. lia. }
  apply orb_false_iff in Cy. rewrite !Z.ltb_ge in Cy.
  destruct ((month dt <? 1) || (12 <? month dt)) eqn:Cmo.
  { apply orb_true_iff in Cmo. rewrite Z.ltb_lt, Z.ltb_lt in Cmo.
    split; [repeat split|]. right. split; [reflexivity|]. split; [reflexivity|].
    right. intros (_ & G & _). clear - Cmo G. lia. }
  apply orb_false_iff in Cmo. rewrite !Z.ltb_ge in Cmo.
  destruct ((day dt <? 1) || (31 <? day dt)) eqn:Cd.
  { apply orb_true_iff in Cd. rewrite Z.ltb_lt, Z.ltb_lt in Cd.
    split; [repeat split|]. right. split; [reflexivity|]. split; [reflexivity|].
    right. intros (_ & _ & G & _). clear - Cd G. lia. }
  apply orb_false_iff in Cd. rewrite !Z.ltb_ge in Cd.
  destruct (23 <? hour dt) eqn:Ch; [apply Z.ltb_lt in Ch|apply Z.ltb_ge in Ch].
  { split; [repeat split|]. right. split; [reflexivity|]. split; [reflexivity|].
    right. intros (_ & _ & _ & G & _). clear - Ch G. lia. }
  destruct (59 <? minute dt) eqn:Cmi; [apply Z.ltb_lt in Cmi|apply Z.ltb_ge in Cmi].
  { split; [repeat split|]. right. split; [reflexivity|]. split; [reflexivity|].
    right. intros (_ & _ & _ & _ & G & _). clear - Cmi G. lia. }
  destruct (59 <? second dt) eqn:Cse; [apply Z.ltb_lt in Cse|apply Z.ltb_ge in Cse].
  { split; [repeat split|]. right. split; [reflexivity|]. split; [reflexivity|].
    right. intros (_ & _ & _ & _ & _ & G). clear - Cse G. lia. }
  split; [repeat split|]. left. split; [reflexivity|]. split; [reflexivity|].
  split; [exact Elen|].
  split; [clear - Cy; lia|]. split; [clear - Cmo; lia|]. split; [clear - Cd; lia|].
  split; [clear - Ch Ph; lia|]. split; [clear - Cmi Pmi; lia|clear - Cse Pse; lia].
Qed.

(** C9 (validation of the wall-clock text).  [parseAndSetTime] returns
    [true] exactly when the trimmed text has at least 19 characters and its
    six numbers are within the accepted ranges; it then sets the RTC to
    these numbers.  In every other case, in particular for a text shorter
    than 19 characters or with a field out of range, it returns [false] and
    leaves the RTC as it was.  Nothing but the RTC and the serial output is
    ever changed. *)
Theorem parseAndSetTime_validation (timeStr : string) (s : State float) :
  let r := parseAndSetTime timeStr s in
  ((String.length timeStr < 19)%nat \/ ~ fields_in_range (text_fields timeStr) ->
     r.1 = false /\ Rtc r.2 = Rtc s) /\
  (r.1 = true <->
     (19 <= String.length (String_trim timeStr))%nat /\
     fields_in_range (text_fields timeStr)) /\
  (r.1 = true -> Rtc r.2 = DateTime_of_fields (text_fields timeStr)) /\
  (r.1 = false -> Rtc r.2 = Rtc s) /\
  storage r.2 = storage s /\ live r.2 = live s /\ LittleFS r.2 = LittleFS s.
Proof.
  cbv zeta.
  pose proof (String_trim_length timeStr) as Htrim.
  pose proof (text_fields_narrow timeStr) as Hnarrow.
  pose proof (parse_fields_in_range timeStr) as Hparse.
  pose proof (parseAndSetTime_cases timeStr s) as Hcases. cbv zeta in Hcases.
  destruct Hcases as (Hframe & [(Hr & Hrtc & Hlen & Hin) | (Hr & Hrtc & Hwhy)]).
  - apply Hnarrow in Hin.
    split.
    { intros [Hshort | Hout]; [exfalso; clear - Hshort Hlen Htrim; lia|].
      exfalso. apply Hout. exact Hin. }
    split; [split; [intros _; split; assumption|intros _; exact Hr]|].
    split; [intros _; rewrite Hrtc; apply Hparse; exact Hin|].
    split; [rewrite Hr; discriminate|exact Hframe].
  - split; [intros _; split; assumption|].
    split.
    { split; [rewrite Hr; discriminate|].
      intros (Hlen & Hin). exfalso. apply Hnarrow in Hin.
      destruct Hwhy as [Hshort | Hout]; [clear - Hshort Hlen; lia|].
      apply Hout. exact Hin. }
    split; [rewrite Hr; discriminate|].
    split; [intros _; exact Hrtc|exact Hframe].
Qed.

End Clock.

(** ** Binary32 rounding: division and conversion from [long] *)

Lemma digits2_pos_log2 (p : positive) :
  Z.pos (digits2_pos p) = Z.log2 (Z.pos p) + 1.
Proof.
  induction p as [p IH|p IH|].
  - cbn [digits2_pos]. rewrite Pos2Z.inj_succ, IH.
    change (Z.pos p~1) with (2 * Z.pos p + 1).
    rewrite Z.log2_succ_double by lia. lia.
  - cbn [digits2_pos]. rewrite Pos2Z.inj_succ, IH.
    change (Z.pos p~0) with (2 * Z.pos p).
    rewrite Z.log2_double by lia. lia.
  - reflexivity.
Qed.

Lemma Zdigits2_bounds (m : Z) :
  0 < m -> 2 ^ (Zdigits2 m - 1) <= m < 2 ^ Zdigits2 m.
Proof.
  intros Hm. destruct m as [|p|p]; try lia.
  cbn [Zdigits2]. rewrite digits2_pos_log2.
  pose proof (Z.log2_spec (Z.pos p) ltac:(lia)) as H.
  replace (Z.log2 (Z.pos p) + 1 - 1) with (Z.log2 (Z.pos p)) by lia.
  replace (Z.log2 (Z.pos p) + 1) with (Z.succ (Z.log2 (Z.pos p))) by lia.
  exact H.
Qed.

Lemma Zdigits2_unique (m k : Z) :
  0 < k -> 2 ^ (k - 1) <= m < 2 ^ k -> Zdigits2 m = k.
Proof.
  intros Hk Hm.
  assert (0 < m) by (pose proof (Z.pow_pos_nonneg 2 (k - 1)); lia).
  destruct m as [|p|p]; try lia.
  cbn [Zdigits2]. rewrite digits2_pos_log2.
  rewrite (Z.log2_unique (Z.pos p) (k - 1)); [lia|lia|].
  replace (Z.succ (k - 1)) with k by lia. exact Hm.
Qed.

Lemma loc_of_shr_record_of_loc (m : Z) (l : location) :
  shr_m (shr_record_of_loc m l) = m /\
  loc_of_shr_record (shr_record_of_loc m l) = l.
Proof. destruct l as [|[| |]]; split; reflexivity. Qed.

(** One shift to the right keeps the record in step with the quotient. *)
Lemma shr_1_loc_of (num den : Z) :
  0 <= num -> 0 < den ->
  shr_1 (shr_record_of_loc (num / den) (loc_of num den))
  = shr_record_of_loc (num / (2 * den)) (loc_of num (2 * den)).
Proof.
  intros Hnum Hden.
  pose proof (Z.div_mod num den ltac:(lia)) as E.
  pose proof (Z.mod_pos_bound num den Hden) as Hr.
  pose proof (Z.div_pos num den Hnum Hden) as Hq.
  set (q := num / den) in *. set (r := num mod den) in *.
  pose proof (Z.div_mod q 2 ltac:(lia)) as E2.
  pose proof (Z.mod_pos_bound q 2 ltac:(lia)) as Hb.
  set (h := q / 2) in *. set (b := q mod 2) in *.
  assert (Hq2 : num / (2 * den) = h).
  { symmetry. apply (Z.div_unique num (2 * den) h (b * den + r)); nia. }
  assert (Hr2 : num mod (2 * den) = b * den + r).
  { symmetry. apply (Z.mod_unique num (2 * den) h (b * den + r)); nia. }
  rewrite Hq2. unfold loc_of. rewrite Hr2. fold r.
  assert (Hb' : b = 0 \/ b = 1) by lia.
  destruct Hb' as [Hb0|Hb1].
  - (* q even *)
    assert (Hqe : q = 2 * h) by lia.
    rewrite Hb0. replace (0 * den + r) with r by lia.
    destruct (Z.eqb_spec r 0) as [Hr0|Hr0].
    + rewrite Hqe. cbn [shr_record_of_loc]. destruct h as [|p|p]; try lia; reflexivity.
    + replace (2 * r ?= 2 * den) with Lt by (symmetry; apply Z.compare_lt_iff; lia).
      rewrite Hqe.
      destruct (2 * r ?= den); cbn [shr_record_of_loc];
        destruct h as [|p|p]; try lia; reflexivity.
  - (* q odd *)
    assert (Hqo : q = 2 * h + 1) by lia.
    rewrite Hb1. replace (1 * den + r) with (den + r) by lia.
    replace (den + r =? 0) with false by (symmetry; apply Z.eqb_neq; lia).
    destruct (Z.eqb_spec r 0) as [Hr0|Hr0].
    + replace (2 * (den + r) ?= 2 * den) with Eq
        by (symmetry; apply Z.compare_eq_iff; lia).
      rewrite Hqo. cbn [shr_record_of_loc]. destruct h as [|p|p]; try lia; reflexivity.
    + replace (2 * (den + r) ?= 2 * den) with Gt
        by (symmetry; apply Z.compare_gt_iff; lia).
      rewrite Hqo.
      destruct (2 * r ?= den); cbn [shr_record_of_loc];
        destruct h as [|p|p]; try lia; reflexivity.
Qed.

Lemma iter_pos_shr_1 (p : positive) :
  forall num den : Z, 0 <= num -> 0 < den ->
  SpecFloat.iter_pos shr_1 p (shr_record_of_loc (num / den) (loc_of num den))
  = shr_record_of_loc (num / (2 ^ Z.pos p * den)) (loc_of num (2 ^ Z.pos p * den)).
Proof.
  induction p as [p IH|p IH|]; intros num den Hnum Hden.
  - cbn [SpecFloat.iter_pos]. rewrite shr_1_loc_of by assumption.
    pose proof (Z.pow_pos_nonneg 2 (Z.pos p) ltac:(lia) ltac:(lia)) as Hp.
    rewrite IH by lia. rewrite IH by nia.
    replace (2 ^ Z.pos p~1 * den) with (2 ^ Z.pos p * (2 ^ Z.pos p * (2 * den)));
      [reflexivity|].
    replace (Z.pos p~1) with (Z.pos p + (Z.pos p + 1)) by lia.
    rewrite !Z.pow_add_r by lia. change (2 ^ 1) with 2. ring.
  - cbn [SpecFloat.iter_pos].
    pose proof (Z.pow_pos_nonneg 2 (Z.pos p) ltac:(lia) ltac:(lia)) as Hp.
    rewrite IH by assumption. rewrite IH by nia.
    replace (2 ^ Z.pos p~0 * den) with (2 ^ Z.pos p * (2 ^ Z.pos p * den));
      [reflexivity|].
    replace (Z.pos p~0) with (Z.pos p + Z.pos p) by lia.
    rewrite !Z.pow_add_r by lia. ring.
  - cbn [SpecFloat.iter_pos]. rewrite shr_1_loc_of by assumption. reflexivity.
Qed.

Lemma shr_loc_of (num den e n : Z) :
  0 <= num -> 0 < den -> 0 <= n ->
  shr (shr_record_of_loc (num / den) (loc_of num den)) e n
  = (shr_record_of_loc (num / (2 ^ n * den)) (loc_of num (2 ^ n * den)), e + n).
Proof.
  intros Hnum Hden Hn. destruct n as [|p|p]; [| |lia].
  - cbn [shr]. change (2 ^ 0) with 1. rewrite Z.mul_1_l, Z.add_0_r. reflexivity.
  - cbn [shr]. rewrite iter_pos_shr_1 by assumption. reflexivity.
Qed.

Lemma round_nearest_even_loc_of (num den : Z) :
  0 <= num -> 0 < den ->
  num / den <= round_nearest_even (num / den) (loc_of num den) <= num / den + 1 /\
  2 * Z.abs (round_nearest_even (num / den) (loc_of num den) * den - num) <= den.
Proof.
  intros Hnum Hden.
  pose proof (Z.div_mod num den ltac:(lia)) as E.
  pose proof (Z.mod_pos_bound num den Hden) as Hr.
  unfold loc_of. set (q := num / den) in *. set (r := num mod den) in *.
  destruct (Z.eqb_spec r 0) as [Hr0|Hr0].
  - cbn [round_nearest_even]. split; [lia|]. nia.
  - destruct (Z.compare_spec (2 * r) den) as [Heq|Hlt|Hgt]; cbn [round_nearest_even].
    + destruct (Z.even q); split; try lia; nia.
    + split; [lia|]. nia.
    + split; [lia|]. nia.
Qed.

Lemma binary_round_aux_spec (num den ez : Z) :
  0 <= num -> 0 < den ->
  2 ^ 23 <= num / den ->
  -149 <= ez + Zdigits2 (num / den) - 24 ->
  ez + Zdigits2 (num / den) - 24 < 104 ->
  exists (mf : positive) (ef : Z),
    binary_round_aux 24 128 false (num / den) ez (loc_of num den)
    = S754_finite false mf ef /\
    2 ^ 23 <= Z.pos mf < 2 ^ 24 /\
    ez + Zdigits2 (num / den) - 24 <= ef <= ez + Zdigits2 (num / den) - 23 /\
    ez <= ef /\
    2 ^ 24 * Z.abs (Z.pos mf * 2 ^ (ef - ez) * den - num)
    <= Z.pos mf * 2 ^ (ef - ez) * den.
Proof.
  intros Hnum Hden Hmz Hlo Hhi.
  pose proof (Zdigits2_bounds (num / den) ltac:(lia)) as Hd.
  set (d := Zdigits2 (num / den)) in *.
  assert (Hd24 : 24 <= d).
  { destruct (Z_lt_le_dec d 24) as [Hlt|Hge]; [|exact Hge]. exfalso.
    assert (2 ^ d <= 2 ^ 23) by (apply Z.pow_le_mono_r; lia). lia. }
  set (n1 := d - 24).
  assert (Hn1 : 0 <= n1) by (unfold n1; lia).
  pose proof (Z.pow_pos_nonneg 2 n1 ltac:(lia) Hn1) as Hp1.
  unfold binary_round_aux, shr_fexp.
  fold d.
  assert (Hfexp : fexp 24 128 (d + ez) - ez = n1).
  { unfold fexp, emin, n1. lia. }
  rewrite Hfexp. rewrite shr_loc_of by assumption.
  set (den' := 2 ^ n1 * den).
  assert (Hden' : 0 < den') by (unfold den'; nia).
  destruct (loc_of_shr_record_of_loc (num / den') (loc_of num den')) as [-> ->].
  destruct (round_nearest_even_loc_of num den' Hnum Hden') as [Hrange Herr].
  set (m2 := round_nearest_even (num / den') (loc_of num den')) in *.
  assert (Hm' : 2 ^ 23 <= num / den' < 2 ^ 24).
  { unfold den'. rewrite (Z.mul_comm (2 ^ n1) den), <- Z.div_div by lia.
    assert (E23 : 2 ^ (d - 1) = 2 ^ 23 * 2 ^ n1).
    { rewrite <- Z.pow_add_r by lia. f_equal. unfold n1. lia. }
    assert (E24 : 2 ^ d = 2 ^ 24 * 2 ^ n1).
    { rewrite <- Z.pow_add_r by lia. f_equal. unfold n1. lia. }
    split.
    - apply Z.div_le_lower_bound; lia.
    - apply Z.div_lt_upper_bound; lia. }
  assert (Hm2 : 2 ^ 23 <= m2 <= 2 ^ 24) by lia.
  destruct (Z_lt_le_dec m2 (2 ^ 24)) as [Hlt|Hge].
  - (* the rounded mantissa still has 24 digits *)
    assert (Hdig : Zdigits2 m2 = 24) by (apply Zdigits2_unique; lia).
    rewrite Hdig.
    assert (Hf2 : fexp 24 128 (24 + (ez + n1)) - (ez + n1) = 0).
    { unfold fexp, emin, n1. lia. }
    rewrite Hf2. cbn [shr shr_record_of_loc shr_m].
    destruct m2 as [|mf|mf]; try (cbn in Hm2; lia).
    replace (ez + n1 <=? 128 - 24) with true
      by (symmetry; apply Z.leb_le; unfold n1; lia).
    exists mf, (ez + n1). split; [reflexivity|].
    split; [lia|]. split; [unfold n1; lia|]. split; [lia|].
    replace (ez + n1 - ez) with n1 by lia.
    replace (Z.pos mf * 2 ^ n1 * den) with (Z.pos mf * den') by (unfold den'; ring).
    assert (den' * 2 ^ 23 <= Z.pos mf * den') by nia.
    change (2 ^ 24) with (2 * 2 ^ 23). nia.
  - (* the rounding carried into a 25th digit *)
    assert (Em2 : m2 = 2 ^ 24) by lia.
    rewrite Em2.
    assert (Hf2 : fexp 24 128 (Zdigits2 (2 ^ 24) + (ez + n1)) - (ez + n1) = 1).
    { change (Zdigits2 (2 ^ 24)) with 25. unfold fexp, emin, n1. lia. }
    rewrite Hf2. cbn [shr shr_record_of_loc SpecFloat.iter_pos].
    change (shr_1 {| shr_m := 2 ^ 24; shr_r := false; shr_s := false |})
      with {| shr_m := 2 ^ 23; shr_r := false; shr_s := false |}.
    cbn [shr_m]. change (2 ^ 23) with (Z.pos 8388608).
    replace (ez + n1 + 1 <=? 128 - 24) with true
      by (symmetry; apply Z.leb_le; unfold n1; lia).
    exists 8388608%positive, (ez + n1 + 1). split; [reflexivity|].
    split; [lia|]. split; [unfold n1; lia|]. split; [lia|].
    replace (ez + n1 + 1 - ez) with (n1 + 1) by lia.
    rewrite Z.pow_add_r by lia. change (2 ^ 1) with 2.
    replace (8388608 * (2 ^ n1 * 2) * den) with (2 ^ 24 * den') by (unfold den'; lia).
    rewrite Em2 in Herr. change (2 ^ 24) with 16777216 in *. nia.
Qed.

Lemma new_location_loc_of (num den : Z) :
  0 <= num -> 0 < den ->
  new_location den (num mod den) = loc_of num den.
Proof.
  intros Hnum Hden. pose proof (Z.mod_pos_bound num den Hden) as Hr.
  unfold new_location, loc_of, new_location_even, new_location_odd.
  set (r := num mod den) in *.
  destruct (Z.even den) eqn:Ev.
  - reflexivity.
  - destruct (Z.eqb_spec r 0) as [Hr0|Hr0]; [reflexivity|]. f_equal.
    assert (Hodd : Z.odd den = true) by (rewrite <- Z.negb_even, Ev; reflexivity).
    apply Z.odd_spec in Hodd. destruct Hodd as [k Hk].
    destruct (Z.compare_spec (2 * r + 1) den) as [H1|H1|H1];
      symmetry; [apply Z.compare_lt_iff|apply Z.compare_lt_iff|apply Z.compare_gt_iff];
      lia.
Qed.

(** Division of two positive normal binary32 numbers whose quotient is in
    the normal range. *)
Lemma SFdiv_spec (mx my : positive) (ex ey : Z) :
  2 ^ 23 <= Z.pos mx < 2 ^ 24 -> 2 ^ 23 <= Z.pos my < 2 ^ 24 ->
  -149 <= ex - ey - 24 -> ex - ey - 24 + 1 < 104 ->
  exists (mf : positive) (ef : Z),
    SFdiv 24 128 (S754_finite false mx ex) (S754_finite false my ey)
    = S754_finite false mf ef /\
    2 ^ 23 <= Z.pos mf < 2 ^ 24 /\
    ex - ey - 24 <= ef <= ex - ey - 22 /\
    2 ^ 24 * Z.abs (Z.pos mf * 2 ^ (ef - (ex - ey - 24)) * Z.pos my - Z.pos mx * 2 ^ 24)
    <= Z.pos mf * 2 ^ (ef - (ex - ey - 24)) * Z.pos my.
Proof.
  intros Hmx Hmy Hlo Hhi.
  assert (Hdx : Zdigits2 (Z.pos mx) = 24) by (apply Zdigits2_unique; lia).
  assert (Hdy : Zdigits2 (Z.pos my) = 24) by (apply Zdigits2_unique; lia).
  cbn [SFdiv xorb]. unfold SFdiv_core_binary. rewrite Hdx, Hdy.
  assert (He' : Z.min (fexp 24 128 (24 + ex - (24 + ey))) (ex - ey) = ex - ey - 24).
  { unfold fexp, emin. lia. }
  rewrite He'. cbv zeta.
  replace (ex - ey - (ex - ey - 24)) with 24 by lia.
  rewrite Z.shiftl_mul_pow2 by lia.
  set (num := Z.pos mx * 2 ^ 24). set (den := Z.pos my).
  assert (Hnum : 0 <= num) by (unfold num; lia).
  assert (Hden : 0 < den) by (unfold den; lia).
  pose proof (Z.div_eucl_eq num den ltac:(lia)) as Heu.
  assert (Hq : fst (Z.div_eucl num den) = num / den) by reflexivity.
  assert (Hr : snd (Z.div_eucl num den) = num mod den) by reflexivity.
  destruct (Z.div_eucl num den) as [q r]. cbn [fst snd] in Hq, Hr. subst q r.
  rewrite new_location_loc_of by assumption.
  assert (Hqlo : 2 ^ 23 <= num / den).
  { apply Z.div_le_lower_bound; [lia|]. unfold num, den.
    change (2 ^ 24) with 16777216 in *. change (2 ^ 23) with 8388608 in *. nia. }
  assert (Hqhi : num / den < 2 ^ 25).
  { apply Z.div_lt_upper_bound; [lia|]. unfold num, den.
    change (2 ^ 25) with 33554432. change (2 ^ 24) with 16777216 in *.
    change (2 ^ 23) with 8388608 in *. nia. }
  pose proof (Zdigits2_bounds (num / den) ltac:(lia)) as Hd.
  assert (Hdq : 24 <= Zdigits2 (num / den) <= 25).
  { split.
    - destruct (Z_lt_le_dec (Zdigits2 (num / den)) 24) as [Hlt|Hge]; [|exact Hge].
      exfalso. assert (2 ^ Zdigits2 (num / den) <= 2 ^ 23)
        by (apply Z.pow_le_mono_r; lia). lia.
    - destruct (Z_lt_le_dec 25 (Zdigits2 (num / den))) as [Hlt|Hge]; [|exact Hge].
      exfalso. assert (2 ^ 25 <= 2 ^ (Zdigits2 (num / den) - 1))
        by (apply Z.pow_le_mono_r; lia). lia. }
  destruct (binary_round_aux_spec num den (ex - ey - 24) Hnum Hden Hqlo
              ltac:(lia) ltac:(lia))
    as (mf & ef & Hres & Hmf & Hef & Hge & Herr).
  exists mf, ef. split; [exact Hres|]. split; [exact Hmf|]. split; [lia|].
  exact Herr.
Qed.

Lemma Pos_iter_xO (m k : positive) :
  Z.pos (Pos.iter xO m k) = Z.pos m * 2 ^ Z.pos k.
Proof.
  induction k as [|k IH] using Pos.peano_ind.
  - cbn. lia.
  - rewrite Pos.iter_succ. rewrite Pos2Z.inj_xO, IH.
    rewrite Pos2Z.inj_succ, Z.pow_succ_r by lia. ring.
Qed.

Lemma binary_round_aux_exact (m ez : Z) :
  2 ^ 23 <= m ->
  -149 <= ez + Zdigits2 m - 24 -> ez + Zdigits2 m - 24 < 104 ->
  exists (mf : positive) (ef : Z),
    binary_round_aux 24 128 false m ez loc_Exact = S754_finite false mf ef /\
    2 ^ 23 <= Z.pos mf < 2 ^ 24 /\
    ez + Zdigits2 m - 24 <= ef <= ez + Zdigits2 m - 23 /\
    ez <= ef /\
    2 ^ 24 * Z.abs (Z.pos mf * 2 ^ (ef - ez) - m) <= Z.pos mf * 2 ^ (ef - ez).
Proof.
  intros Hm Hlo Hhi.
  assert (Hq : m / 1 = m) by apply Z.div_1_r.
  assert (Hl : loc_of m 1 = loc_Exact).
  { unfold loc_of. rewrite Z.mod_1_r. reflexivity. }
  assert (H0 : 0 <= m) by (change (2 ^ 23) with 8388608 in Hm; lia).
  pose proof (binary_round_aux_spec m 1 ez H0 ltac:(lia)) as H.
  rewrite Hq, Hl in H.
  destruct (H Hm Hlo Hhi) as (mf & ef & Hres & Hmf & Hef & Hge & Herr).
  exists mf, ef. rewrite Z.mul_1_r in Herr. auto.
Qed.

(** Conversion of a positive integer below 2^31. *)
Lemma binary_normalize_spec (m : positive) :
  Z.pos m < 2 ^ 31 ->
  exists (mf : positive) (ef k : Z),
    binary_normalize 24 128 (Z.pos m) 0 false = S754_finite false mf ef /\
    2 ^ 23 <= Z.pos mf < 2 ^ 24 /\ -23 <= ef <= 8 /\
    0 <= k /\ 0 <= ef + k /\
    2 ^ 24 * Z.abs (Z.pos mf * 2 ^ (ef + k) - Z.pos m * 2 ^ k)
    <= Z.pos mf * 2 ^ (ef + k).
Proof.
  intros Hm.
  pose proof (Zdigits2_bounds (Z.pos m) ltac:(lia)) as Hd.
  assert (Hd1 : 1 <= Zdigits2 (Z.pos m) <= 31).
  { split.
    - destruct (Z_lt_le_dec (Zdigits2 (Z.pos m)) 1) as [Hlt|Hge]; [|exact Hge].
      exfalso. cbn [Zdigits2] in Hlt. lia.
    - destruct (Z_lt_le_dec 31 (Zdigits2 (Z.pos m))) as [Hlt|Hge]; [|exact Hge].
      exfalso. assert (2 ^ 31 <= 2 ^ (Zdigits2 (Z.pos m) - 1))
        by (apply Z.pow_le_mono_r; lia). lia. }
  cbn [binary_normalize]. unfold binary_round.
  change (Z.pos (digits2_pos m)) with (Zdigits2 (Z.pos m)).
  set (d := Zdigits2 (Z.pos m)) in *.
  assert (Hfexp : fexp 24 128 (d + 0) = d - 24) by (unfold fexp, emin; lia).
  rewrite Hfexp. unfold shl_align.
  destruct (Z_lt_le_dec d 24) as [Hsmall|Hbig].
  - (* fewer than 24 digits: the mantissa is shifted left, nothing is lost *)
    destruct (d - 24 - 0) as [|p|p] eqn:Ep; try lia.
    cbv beta iota.
    set (mz := Pos.iter xO m p).
    assert (Hmz : Z.pos mz = Z.pos m * 2 ^ (24 - d)).
    { unfold mz. rewrite Pos_iter_xO. f_equal. f_equal. lia. }
    assert (E23 : 2 ^ 23 = 2 ^ (d - 1) * 2 ^ (24 - d)).
    { rewrite <- Z.pow_add_r by lia. f_equal. lia. }
    assert (E24 : 2 ^ 24 = 2 ^ d * 2 ^ (24 - d)).
    { rewrite <- Z.pow_add_r by lia. f_equal. lia. }
    pose proof (Z.pow_pos_nonneg 2 (24 - d) ltac:(lia) ltac:(lia)) as Hp.
    assert (Hmzr : 2 ^ 23 <= Z.pos mz < 2 ^ 24) by (rewrite Hmz, E23, E24; nia).
    assert (Hdz : Zdigits2 (Z.pos mz) = 24) by (apply Zdigits2_unique; lia).
    destruct (binary_round_aux_exact (Z.pos mz) (d - 24) ltac:(lia)
                ltac:(rewrite Hdz; lia) ltac:(rewrite Hdz; lia))
      as (mf & ef & Hres & Hmf & Hef & Hge & Herr).
    rewrite Hdz in Hef.
    exists mf, ef, (24 - d). split; [exact Hres|]. split; [exact Hmf|].
    split; [lia|]. split; [lia|]. split; [lia|].
    replace (ef + (24 - d)) with (ef - (d - 24)) by lia.
    rewrite <- Hmz. exact Herr.
  - (* 24 digits or more: rounding *)
    replace (d - 24 - 0) with (d - 24) by lia.
    assert (Hal : match d - 24 with
                  | Z.neg d0 => (Pos.iter xO m d0, d - 24)
                  | _ => (m, 0)
                  end = (m, 0)).
    { destruct (d - 24) as [|p|p] eqn:Ep; try reflexivity. lia. }
    rewrite Hal.
    assert (Hmlo : 2 ^ 23 <= Z.pos m).
    { assert (2 ^ 23 <= 2 ^ (d - 1)) by (apply Z.pow_le_mono_r; lia). lia. }
    destruct (binary_round_aux_exact (Z.pos m) 0 Hmlo
                ltac:(fold d; lia) ltac:(fold d; lia))
      as (mf & ef & Hres & Hmf & Hef & Hge & Herr).
    fold d in Hef.
    exists mf, ef, 0. split; [exact Hres|]. split; [exact Hmf|].
    split; [lia|]. split; [lia|]. split; [lia|].
    rewrite Z.add_0_r. change (2 ^ 0) with 1. rewrite Z.mul_1_r.
    rewrite Z.sub_0_r in Herr. exact Herr.
Qed.

Lemma to_bytes_of_bytes_le (z : Z) :
  Binary32.to_bytes (Binary32.of_bytes (le_bytes 4 z)) = le_bytes 4 z.
Proof. reflexivity. Qed.

Lemma bits_of_bits (z : Z) :
  0 <= z < 2 ^ 32 -> Binary32.bits (Binary32.of_bits z) = z.
Proof.
  intros Hz. unfold Binary32.bits, Binary32.of_bits.
  rewrite to_bytes_of_bytes_le. apply le_value_le_bytes_small. exact Hz.
Qed.

(** A positive normal number survives the trip through its four bytes. *)
Lemma to_sf_of_sf (m : positive) (e : Z) :
  2 ^ 23 <= Z.pos m < 2 ^ 24 -> -149 <= e <= 104 ->
  Binary32.to_sf (Binary32.of_sf (S754_finite false m e)) = S754_finite false m e.
Proof.
  intros Hm He. unfold Binary32.to_sf, Binary32.of_sf.
  change (2 ^ 23) with 8388608 in Hm. change (2 ^ 24) with 16777216 in Hm.
  set (z := Binary32.encode (S754_finite false m e)).
  assert (Hz : z = (e + 150) * 8388608 + (Z.pos m - 8388608)).
  { unfold z, Binary32.encode. change (2 ^ 23) with 8388608.
    destruct (Z.ltb_spec (Z.pos m) 8388608); lia. }
  assert (Hzr : 0 <= z < 2 ^ 31).
  { change (2 ^ 31) with 2147483648. lia. }
  rewrite bits_of_bits by (change (2 ^ 32) with 4294967296;
                           change (2 ^ 31) with 2147483648 in Hzr; lia).
  unfold Binary32.decode. change (2 ^ 23) with 8388608.
  assert (Hsign : Z.testbit z 31 = false).
  { destruct (Z.eq_dec z 0) as [->|Hnz]; [reflexivity|].
    apply Z.bits_above_log2; [lia|]. apply Z.log2_lt_pow2; lia. }
  assert (Hq : z / 8388608 = e + 150).
  { rewrite Hz. rewrite Z.add_comm, Z.div_add by lia.
    rewrite Z.div_small by lia. lia. }
  assert (Hr : z mod 8388608 = Z.pos m - 8388608).
  { rewrite Hz. rewrite Z.add_comm, Z.mod_add by lia.
    apply Z.mod_small. lia. }
  rewrite Hsign, Hq, Hr. cbv zeta.
  rewrite (Z.mod_small (e + 150) 256) by lia.
  destruct (Z.eqb_spec (e + 150) 0); [lia|].
  destruct (Z.eqb_spec (e + 150) 255); [lia|].
  f_equal; [|lia].
  replace (Z.pos m - 8388608 + 8388608) with (Z.pos m) by lia. reflexivity.
Qed.

Section Rationals.
Local Open Scope Q_scope.

Lemma pow2_Qpower (e : Z) : Binary32.pow2 e == 2 ^ e.
Proof.
  unfold Binary32.pow2. destruct (Z.leb_spec 0 e) as [H|H].
  - rewrite Zpower_Qpower by exact H. reflexivity.
  - rewrite Zpower_Qpower by lia.
    replace e with (- - e)%Z at 2 by lia.
    rewrite (Qpower_opp 2 (- e)). unfold Qdiv. rewrite Qmult_1_l. reflexivity.
Qed.

Lemma pow2_add (a b : Z) :
  Binary32.pow2 (a + b) == Binary32.pow2 a * Binary32.pow2 b.
Proof.
  rewrite !pow2_Qpower. apply Qpower_plus. discriminate.
Qed.

Lemma pow2_pos (e : Z) : 0 < Binary32.pow2 e.
Proof.
  rewrite pow2_Qpower. apply Qpower_0_lt. reflexivity.
Qed.

Lemma pow2_nonneg (e : Z) : (0 <= e)%Z -> Binary32.pow2 e = inject_Z (2 ^ e).
Proof.
  intros H. unfold Binary32.pow2. destruct (Z.leb_spec 0 e); [reflexivity|lia].
Qed.

Lemma near_of_Z (mf : positive) (ef ez num den : Z) :
  (0 < den)%Z -> (ez <= ef)%Z ->
  (2 ^ 24 * Z.abs (Z.pos mf * 2 ^ (ef - ez) * den - num)
   <= Z.pos mf * 2 ^ (ef - ez) * den)%Z ->
  near (inject_Z (Z.pos mf) * Binary32.pow2 ef)
       (inject_Z num / inject_Z den * Binary32.pow2 ez).
Proof.
  intros Hden Hk Herr.
  set (k := (ef - ez)%Z) in *.
  assert (Hef : Binary32.pow2 ef == inject_Z (2 ^ k) * Binary32.pow2 ez).
  { replace ef with (k + ez)%Z by (unfold k; lia).
    rewrite pow2_add, (pow2_nonneg k) by (unfold k; lia). reflexivity. }
  pose proof (pow2_pos ez) as Hc. pose proof (pow2_pos ef) as Hcf.
  set (c := Binary32.pow2 ez) in *.
  set (A := (Z.pos mf * 2 ^ k)%Z) in *.
  assert (HA : (0 < A)%Z).
  { unfold A. pose proof (Z.pow_pos_nonneg 2 k ltac:(lia) ltac:(unfold k; lia)). lia. }
  assert (Hd : 0 < inject_Z den).
  { change 0 with (inject_Z 0). rewrite <- Zlt_Qlt. exact Hden. }
  assert (HV : inject_Z (Z.pos mf) * Binary32.pow2 ef == inject_Z A * c).
  { rewrite Hef. unfold A. rewrite inject_Z_mult. ring. }
  assert (Hlo : ((2 ^ 24 - 1) * (A * den) <= 2 ^ 24 * num)%Z) by lia.
  assert (Hhi : (2 ^ 24 * num <= (2 ^ 24 + 1) * (A * den))%Z) by lia.
  rewrite Zle_Qle in Hlo, Hhi. rewrite !inject_Z_mult in Hlo, Hhi.
  change (inject_Z (2 ^ 24 - 1)) with (16777215 # 1) in Hlo.
  change (inject_Z (2 ^ 24)) with (16777216 # 1) in Hlo, Hhi.
  change (inject_Z (2 ^ 24 + 1)) with (16777217 # 1) in Hhi.
  set (a := inject_Z A) in *. set (d := inject_Z den) in *.
  set (n := inject_Z num) in *.
  assert (Ha : 0 < a).
  { unfold a. change 0 with (inject_Z 0). rewrite <- Zlt_Qlt. exact HA. }
  assert (Hx : n / d * c == n * (c / d)) by (field; lra).
  assert (Hcd : 0 < c / d) by (apply Qlt_shift_div_l; lra).
  assert (Hy : forall r, a * c * r == (a * d * r) * (c / d)) by (intros; field; lra).
  unfold near. rewrite HV, Hx, !Hy. split; [|split].
  - apply Qmult_lt_0_compat; assumption.
  - apply Qmult_le_compat_r; [|lra]. lra.
  - apply Qmult_le_compat_r; [|lra]. lra.
Qed.

Lemma near_Qeq (V X X' : Q) : X == X' -> near V X -> near V X'.
Proof.
  intros HX (HV & Hlo & Hhi). unfold near. rewrite <- HX. auto.
Qed.

Lemma pow2_opp (e : Z) : Binary32.pow2 (- e) == / Binary32.pow2 e.
Proof.
  rewrite !pow2_Qpower. apply Qpower_opp.
Qed.

Lemma normal32_value (a : Binary32.t) (m : positive) (e : Z) :
  normal32 a m e -> Binary32.value a = inject_Z (Z.pos m) * Binary32.pow2 e.
Proof.
  intros [H _]. unfold Binary32.value. rewrite H. reflexivity.
Qed.

Lemma normal32_pos (a : Binary32.t) (m : positive) (e : Z) :
  normal32 a m e -> 0 < Binary32.value a.
Proof.
  intros H. rewrite (normal32_value a m e H).
  apply Qmult_lt_0_compat; [reflexivity|apply pow2_pos].
Qed.

(** One binary32 division of positive normal numbers, away from overflow
    and underflow. *)
Lemma fdiv_near (a b : Binary32.t) (ma mb : positive) (ea eb : Z) :
  normal32 a ma ea -> normal32 b mb eb ->
  (-149 <= ea - eb - 24)%Z -> (ea - eb - 22 <= 104)%Z ->
  exists (mf : positive) (ef : Z),
    normal32 (fdiv a b) mf ef /\ (ea - eb - 24 <= ef <= ea - eb - 22)%Z /\
    near (Binary32.value (fdiv a b)) (Binary32.value a / Binary32.value b).
Proof.
  intros Ha Hb Hlo Hhi.
  pose proof (normal32_value a ma ea Ha) as Va.
  pose proof (normal32_value b mb eb Hb) as Vb.
  destruct Ha as [Ea Hma]. destruct Hb as [Eb Hmb].
  destruct (SFdiv_spec ma mb ea eb Hma Hmb Hlo ltac:(lia))
    as (mf & ef & Hres & Hmf & Hef & Herr).
  assert (Hsf : Binary32.to_sf (fdiv a b) = S754_finite false mf ef).
  { cbn [fdiv Binary32.ops]. unfold Binary32.op2. rewrite Ea, Eb, Hres.
    apply to_sf_of_sf; [exact Hmf|lia]. }
  exists mf, ef. split; [split; assumption|]. split; [exact Hef|].
  unfold Binary32.value at 1. rewrite Hsf. cbn [Binary32.SF2Q].
  rewrite Va, Vb.
  apply (near_Qeq _ (inject_Z (Z.pos ma * 2 ^ 24) / inject_Z (Z.pos mb)
                     * Binary32.pow2 (ea - eb - 24))).
  - replace (ea - eb - 24)%Z with (ea + (- eb + -24))%Z by lia.
    rewrite !pow2_add, pow2_opp, inject_Z_mult.
    change (inject_Z (2 ^ 24)) with (16777216 # 1).
    change (Binary32.pow2 (-24)) with (1 / (16777216 # 1)).
    pose proof (pow2_pos eb) as Hpb.
    assert (Hmbq : 0 < inject_Z (Z.pos mb)) by reflexivity.
    field. split; lra.
  - apply near_of_Z; [lia|lia|exact Herr].
Qed.

(** The conversion of a positive [long] to binary32. *)
Lemma of_int_near (z : Z) :
  (0 < z < 2 ^ 31)%Z ->
  exists (mf : positive) (ef : Z),
    normal32 (float_of_int z) mf ef /\ (-23 <= ef <= 8)%Z /\
    near (Binary32.value (float_of_int z)) (inject_Z z).
Proof.
  intros Hz. destruct z as [|m|m]; try lia.
  destruct (binary_normalize_spec m ltac:(lia))
    as (mf & ef & k & Hres & Hmf & Hef & Hk & Hefk & Herr).
  assert (Hsf : Binary32.to_sf (float_of_int (Z.pos m)) = S754_finite false mf ef).
  { cbn [float_of_int Binary32.ops]. unfold Binary32.of_int. rewrite Hres.
    apply to_sf_of_sf; [exact Hmf|lia]. }
  exists mf, ef. split; [split; assumption|]. split; [exact Hef|].
  unfold Binary32.value. rewrite Hsf. cbn [Binary32.SF2Q].
  apply (near_Qeq _ (inject_Z (Z.pos m * 2 ^ k) / inject_Z 1 * Binary32.pow2 (- k))).
  - rewrite pow2_opp, (pow2_nonneg k Hk), inject_Z_mult.
    assert (Hp : 0 < inject_Z (2 ^ k)).
    { change 0 with (inject_Z 0). rewrite <- Zlt_Qlt.
      apply Z.pow_pos_nonneg; lia. }
    change (inject_Z 1) with 1. field. lra.
  - apply near_of_Z; [lia|lia|].
    replace (ef - - k)%Z with (ef + k)%Z by lia.
    rewrite Z.mul_1_r. exact Herr.
Qed.

Lemma float_1023 : normal32 (float_of_int (SAMPLES - 1)) 16760832 (-14).
Proof. split; [vm_compute; reflexivity|lia]. Qed.

Lemma float_1000000 : normal32 (flit 1000000) 16000000 (-4).
Proof. split; [vm_compute; reflexivity|lia]. Qed.

Lemma float_1 : normal32 (flit 1) 8388608 (-23).
Proof. split; [vm_compute; reflexivity|lia]. Qed.

Lemma mul_le_l (z x y : Q) : 0 < z -> x <= y -> z * x <= z * y.
Proof. intros Hz H. apply Qmult_le_l; assumption. Qed.

Lemma near_div_r (V X k : Q) : 0 < k -> near V (X / k) ->
  V * (1 - (1 # 16777216)) * k <= X /\ X <= V * (1 + (1 # 16777216)) * k.
Proof.
  intros Hk (_ & Hlo & Hhi).
  assert (E : X / k * k == X) by (field; lra).
  split.
  - apply (Qmult_le_compat_r _ _ k) in Hlo; [|lra]. rewrite E in Hlo. exact Hlo.
  - apply (Qmult_le_compat_r _ _ k) in Hhi; [|lra]. rewrite E in Hhi. exact Hhi.
Qed.

(** Four roundings in a row, in the rationals. *)
Lemma four_roundings (d va vb vc vr : Q) :
  0 < d -> near va d -> near vb (va / 1023) -> near vc (vb / 1000000) ->
  near vr (1 / vc) ->
  (1023000000 # 1) / d * (1 - (1 # 4000000)) <= vr /\
  vr <= (1023000000 # 1) / d * (1 + (1 # 4000000)).
Proof.
  intros Hd Ha Hb Hc Hr.
  assert (Pc : 0 < vc) by apply Hc. assert (Pr : 0 < vr) by apply Hr.
  destruct Ha as (_ & Ha1 & Ha2).
  destruct (near_div_r _ _ 1023 ltac:(reflexivity) Hb) as [Hb1 Hb2].
  destruct (near_div_r _ _ 1000000 ltac:(reflexivity) Hc) as [Hc1 Hc2].
  destruct (near_div_r _ _ vc Pc Hr) as [Hr1 Hr2].
  clear Hb Hc Hr.
  pose proof (mul_le_l vr _ _ Pr Ha1) as Ma1.
  pose proof (mul_le_l vr _ _ Pr Ha2) as Ma2.
  pose proof (mul_le_l vr _ _ Pr Hb1) as Mb1.
  pose proof (mul_le_l vr _ _ Pr Hb2) as Mb2.
  pose proof (mul_le_l vr _ _ Pr Hc1) as Mc1.
  pose proof (mul_le_l vr _ _ Pr Hc2) as Mc2.
  assert (Hpd : (1023000000 # 1) * (1 - (1 # 4000000)) <= vr * d /\
                vr * d <= (1023000000 # 1) * (1 + (1 # 4000000))).
  { clear - Ma1 Ma2 Mb1 Mb2 Mc1 Mc2 Hr1 Hr2.
    split; lra. }
  destruct Hpd as [Hpd1 Hpd2].
  assert (Ex : forall r, (1023000000 # 1) / d * r == (1023000000 # 1) * r / d)
    by (intros; field; lra).
  rewrite !Ex. split.
  - apply Qle_shift_div_r; [exact Hd|]. exact Hpd1.
  - apply Qle_shift_div_l; [exact Hd|]. exact Hpd2.
Qed.

(** The three divisions of the source on a positive [dt]: the stored
    frequency is within 2.5e-7 (relative) of 1023 / (dt / 1e6). *)
Lemma sampling_frequency_near (dt : Z) :
  (0 < dt < 2 ^ 31)%Z ->
  let Fs : Binary32.t :=
    fdiv (flit 1)
      (fdiv (fdiv (float_of_int dt) (float_of_int (SAMPLES - 1))) (flit 1000000)) in
  let exact := inject_Z ((SAMPLES - 1) * 1000000) / inject_Z dt in
  exact * (1 - (1 # 4000000)) <= Binary32.value Fs /\
  Binary32.value Fs <= exact * (1 + (1 # 4000000)).
Proof.
  intros Hdt.
  destruct (of_int_near dt Hdt) as (ma & ea & Na & Hea & Ha).
  destruct (fdiv_near _ _ _ _ _ _ Na float_1023 ltac:(lia) ltac:(lia))
    as (mb & eb & Nb & Heb & Hb).
  destruct (fdiv_near _ _ _ _ _ _ Nb float_1000000 ltac:(lia) ltac:(lia))
    as (mc & ec & Nc & Hec & Hc).
  destruct (fdiv_near _ _ _ _ _ _ float_1 Nc ltac:(lia) ltac:(lia))
    as (mr & er & Nr & Her & Hr).
  cbv zeta.
  assert (V1 : Binary32.value (flit 1) == 1) by (vm_compute; reflexivity).
  assert (Vn : Binary32.value (float_of_int (SAMPLES - 1)) == 1023)
    by (vm_compute; reflexivity).
  assert (Vm : Binary32.value (flit 1000000) == 1000000)
    by (vm_compute; reflexivity).
  assert (Hd : 0 < inject_Z dt).
  { change 0 with (inject_Z 0). rewrite <- Zlt_Qlt. lia. }
  change (inject_Z ((SAMPLES - 1) * 1000000)) with (1023000000 # 1).
  eapply (four_roundings (inject_Z dt)); [exact Hd|exact Ha| | |].
  - eapply near_Qeq; [|exact Hb]. apply Qdiv_comp; [reflexivity|exact Vn].
  - eapply near_Qeq; [|exact Hc]. apply Qdiv_comp; [reflexivity|exact Vm].
  - eapply near_Qeq; [|exact Hr]. apply Qdiv_comp; [exact V1|reflexivity].
Qed.

End Rationals.

(** ** The binary32 instance reads back what it writes *)

#[global] Instance Binary32_repr : FloatRepr Binary32.t.
Proof.
  split.
  - intros f. reflexivity.
  - intros [a b c d]. reflexivity.
Qed.

(** ** Sampling frequency: the statement *)

Lemma uniform_deltas_sum (t : list Z) (c : Z) :
  (forall i, 0 <= i < SAMPLES - 1 ->
     nth (Z.to_nat (i + 1)) t 0 - nth (Z.to_nat i) t 0 = c) ->
  sum_deltas t = c * (SAMPLES - 1).
Proof.
  intros Hc. unfold sum_deltas.
  assert (H : forall l : list Z, (forall i, i ∈ l -> 0 <= i < SAMPLES - 1) ->
            fold_right Z.add 0
              (map (fun i => nth (Z.to_nat (i + 1)) t 0 - nth (Z.to_nat i) t 0) l)
            = c * Z.of_nat (length l)).
  { induction l as [|i l IH]; intros Hl; cbn [map fold_right length]; [lia|].
    rewrite IH by (intros j Hj; apply Hl; right; exact Hj).
    rewrite Hc by (apply Hl; left). lia. }
  rewrite H.
  - rewrite length_seqZ. rewrite Z2Nat.id by (unfold SAMPLES; lia). reflexivity.
  - intros i Hi. apply elem_of_seqZ in Hi. lia.
Qed.

Lemma timestamps_nth (t : list Z) (n : nat) :
  timestamps_ok t -> (n < Z.to_nat SAMPLES)%nat ->
  0 <= nth n t 0 < 2 ^ 31 /\ nth 0 t 0 <= nth n t 0.
Proof.
  intros (Hlen & Hrange & Hmono) Hn.
  assert (Hnth : forall k : nat, (k < Z.to_nat SAMPLES)%nat -> 0 <= nth k t 0 < 2 ^ 31).
  { intros k Hk. rewrite Forall_forall in Hrange. apply Hrange.
    apply list_elem_of_In, nth_In. lia. }
  split; [apply Hnth, Hn|].
  induction n as [|n IH]; [lia|].
  specialize (IH ltac:(lia)).
  pose proof (Hmono (Z.of_nat n) ltac:(unfold SAMPLES in *; lia)) as H.
  replace (Z.to_nat (Z.of_nat n + 1)) with (S n) in H by lia.
  rewrite Nat2Z.id in H. lia.
Qed.

(** The elapsed time of a capture is never negative and fits a [long]. *)
Lemma sum_deltas_range (t : list Z) :
  timestamps_ok t -> 0 <= sum_deltas t < 2 ^ 31.
Proof.
  intros Hok. rewrite sum_deltas_telescope.
  pose proof (timestamps_nth t (Z.to_nat (SAMPLES - 1)) Hok
                ltac:(unfold SAMPLES; lia)) as [H1 H2].
  pose proof (timestamps_nth t 0 Hok ltac:(unfold SAMPLES; lia)) as [H3 _].
  lia.
Qed.

(** C7 (as amended).  For time stamps as an acquisition produces them,
    [loop] accumulates exactly the sum of the inter-sample deltas: the
    32-bit additions never wrap, and the sum is never negative.  The
    frequency it stores is, in any float arithmetic, the result of the three
    divisions of the source applied to that sum, so it depends on the time
    stamps through their sum only.  In IEEE-754 binary32 every capture with
    uniform deltas of 5000 microseconds gets exactly [200.0f]; every capture
    with a positive sum gets a value within a relative error of 2.5e-7 of
    (N-1) / (sum in seconds), four roundings apart from it; and a capture
    whose time stamps are all equal gets +infinity. *)
Theorem measured_sampling_frequency :
  (forall t : list Z, timestamps_ok t ->
     loop_dt t = sum_deltas t /\ 0 <= sum_deltas t < 2 ^ 31) /\
  (forall (float : Type) (ops : FloatOps float) (t : list Z),
     timestamps_ok t ->
     loop_samplingFrequency t
     = fdiv (flit 1)
         (fdiv (fdiv (float_of_int (sum_deltas t)) (float_of_int (SAMPLES - 1)))
            (flit 1000000))) /\
  (forall t : list Z,
     timestamps_ok t ->
     (forall i, 0 <= i < SAMPLES - 1 ->
        nth (Z.to_nat (i + 1)) t 0 - nth (Z.to_nat i) t 0 = 5000) ->
     loop_samplingFrequency t = (flit 200 : Binary32.t)) /\
  (forall t : list Z,
     timestamps_ok t -> 0 < sum_deltas t ->
     let Fs : Binary32.t := loop_samplingFrequency t in
     let quotient := (inject_Z ((SAMPLES - 1) * 1000000) / inject_Z (sum_deltas t))%Q in
     (quotient * (1 - (1 # 4000000)) <= Binary32.value Fs)%Q /\
     (Binary32.value Fs <= quotient * (1 + (1 # 4000000)))%Q) /\
  (forall t : list Z,
     timestamps_ok t -> sum_deltas t = 0 ->
     Binary32.to_sf (loop_samplingFrequency t) = S754_infinity false).
Proof.
  split; [|split; [|split; [|split]]].
  - intros t Hok. split; [apply loop_dt_sum, Hok|apply sum_deltas_range, Hok].
  - intros float ops t Hok. unfold loop_samplingFrequency. cbv zeta.
    rewrite (loop_dt_sum t Hok). reflexivity.
  - intros t Hok Hu. unfold loop_samplingFrequency. cbv zeta.
    rewrite (loop_dt_sum t Hok), (uniform_deltas_sum t 5000 Hu).
    vm_compute. reflexivity.
  - intros t Hok Hpos. pose proof (sum_deltas_range t Hok) as Hr.
    unfold loop_samplingFrequency. cbv zeta.
    rewrite (loop_dt_sum t Hok).
    apply (sampling_frequency_near (sum_deltas t)). lia.
  - intros t Hok H0. unfold loop_samplingFrequency. cbv zeta.
    rewrite (loop_dt_sum t Hok), H0. vm_compute. reflexivity.
Qed.

(** ** The statements on sample data *)

Lemma demo_live_wf (k : Z) : wf_Live (demo_live k).
Proof.
  unfold wf_Live, demo_live, wf_DateTime, demo_time.
  cbn [currentRecordTime accXvec accYvec accZvec vRealX vRealY vRealZ
       year month day hour minute second].
  rewrite !length_map, !length_seqZ. repeat split; lia.
Qed.

Lemma uniform_stamps_nth (c i : Z) :
  0 <= i < SAMPLES ->
  nth (Z.to_nat i) (map (fun i => c * i) (seqZ 0 SAMPLES)) 0 = c * i.
Proof.
  intros Hi. apply nth_lookup_Some with (d := 0).
  rewrite list_lookup_fmap, lookup_seqZ_lt by lia.
  replace (0 + Z.of_nat (Z.to_nat i)) with i by lia. reflexivity.
Qed.

Lemma uniform_stamps_ok (c : Z) :
  0 <= c -> c * (SAMPLES - 1) < 2 ^ 31 ->
  timestamps_ok (map (fun i => c * i) (seqZ 0 SAMPLES)).
Proof.
  intros Hc Hmax. unfold timestamps_ok.
  split; [rewrite length_map, length_seqZ; reflexivity|]. split.
  - apply Forall_forall. intros x Hx. apply list_elem_of_fmap in Hx as (i & -> & Hi).
    apply elem_of_seqZ in Hi. unfold SAMPLES in *. nia.
  - intros i Hi. rewrite !uniform_stamps_nth by (unfold SAMPLES in *; lia). nia.
Qed.

Lemma uniform_stamps_deltas (c i : Z) :
  0 <= i < SAMPLES - 1 ->
  nth (Z.to_nat (i + 1)) (map (fun i => c * i) (seqZ 0 SAMPLES)) 0
  - nth (Z.to_nat i) (map (fun i => c * i) (seqZ 0 SAMPLES)) 0 = c.
Proof.
  intros Hi. rewrite !uniform_stamps_nth by lia. lia.
Qed.

Lemma uniform_5ms_ok : timestamps_ok uniform_5ms.
Proof. apply (uniform_stamps_ok 5000); [lia|reflexivity]. Qed.

Lemma uniform_5ms_deltas (i : Z) :
  0 <= i < SAMPLES - 1 ->
  nth (Z.to_nat (i + 1)) uniform_5ms 0 - nth (Z.to_nat i) uniform_5ms 0 = 5000.
Proof. apply (uniform_stamps_deltas 5000). Qed.

(** C1, counterexample: with one record stored, [loadRecord 5] does not
    fail; it returns [true] and loads the stored record. *)
Lemma loadRecord_beyond_count_succeeds :
  storedRecordCount (storage demo_saved) = 1 /\
  (loadRecord 5 demo_saved).1 = true /\
  live (loadRecord 5 demo_saved).2 = demo_live 0 /\
  currentViewRecord (storage (loadRecord 5 demo_saved).2) = 0.
Proof. vm_compute. repeat split. Qed.

Lemma loadRecord_index_handling_witness :
  loadRecord (-1) demo_saved = (false, demo_saved) /\
  loadRecord 5 demo_saved
  = loadRecord (storedRecordCount (storage demo_saved) - 1) demo_saved /\
  (loadRecord 5 demo_saved).1 = true.
Proof.
  pose proof (saveCurrentRecord_success demo_env demo_state eq_refl eq_refl) as H.
  cbv zeta in H. destruct H as (_ & Hst & _ & _ & Hfile & _).
  assert (Hready : storageReady (storage demo_saved) = true)
    by (unfold demo_saved; rewrite Hst; reflexivity).
  assert (Hcount : 0 < storedRecordCount (storage demo_saved) <= 5)
    by (unfold demo_saved; rewrite Hst; vm_compute; split; [reflexivity|discriminate]).
  split; [|split].
  - apply (proj1 (loadRecord_index_handling (-1) demo_saved)). right. left. lia.
  - apply (proj1 (proj2 (loadRecord_index_handling 5 demo_saved))). exact Hcount.
  - pose proof (proj2 (proj2 (loadRecord_index_handling 5 demo_saved)) Hready Hcount)
      as H3.
    cbv zeta in H3. destruct H3 as [H3 _].
    rewrite (H3 (record_file (save_meta (millis demo_env) (live demo_state))
                   (live demo_state))).
    + reflexivity.
    + unfold demo_saved. rewrite Hst. exact Hfile.
Defined.

(** C2, counterexample: the record file of the sample capture has
    76 + 6 * 4096 = 24652 bytes, whereas the layout in the design's words
    (spectra of N/2 floats) has 76 + 3 * 4096 + 3 * 2048 = 18508 bytes. *)
Lemma record_file_differs_from_design_layout :
  option_map (fun bs => Z.of_nat (length bs)) (LittleFS demo_saved !! record_filename 0)
  = Some 24652 /\
  Z.of_nat (length (layout_in_design (save_meta (millis demo_env) (demo_live 0))
                      (demo_live 0))) = 18508 /\
  option_map (fun bs => bool_decide (length bs
                = length (layout_in_design (save_meta (millis demo_env) (demo_live 0))
                            (demo_live 0))))
    (LittleFS demo_saved !! record_filename 0) = Some false.
Proof. vm_compute. repeat split. Qed.

Lemma record_file_layout_witness :
  let meta := save_meta (millis demo_env) (demo_live 0) in
  LittleFS demo_saved !! record_filename (newestRecordIndex (storage demo_saved))
  = Some (RecordMeta_bytes meta ++
          floats_bytes (accXvec (demo_live 0)) ++ floats_bytes (accYvec (demo_live 0)) ++
          floats_bytes (accZvec (demo_live 0)) ++
          floats_bytes (vRealX (demo_live 0)) ++ floats_bytes (vRealY (demo_live 0)) ++
          floats_bytes (vRealZ (demo_live 0))) /\
  Z.of_nat (length (record_file meta (demo_live 0))) = 76 + 6 * (4 * SAMPLES).
Proof.
  pose proof (record_file_layout demo_env demo_state eq_refl eq_refl (demo_live_wf 0)) as H.
  cbv zeta in H. destruct H as (H1 & _ & _ & H4). split; [exact H1|exact H4].
Defined.

(** C3, the failing input: a save into the empty ready store when the file
    cannot be opened.  The call returns [false] and writes nothing, neither
    the record nor the cursor file, but the cursors in memory have moved:
    the count is 1 and the newest slot is 0.  A save that then succeeds
    stores count 2 in the cursor file although slot 0 holds no record, and
    [loadRecord 0] fails. *)
Theorem failed_save_moves_cursors :
  storedRecordCount (storage demo_state) = 0 /\
  newestRecordIndex (storage demo_state) = -1 /\
  (saveCurrentRecord failing_env demo_state).1 = false /\
  LittleFS (saveCurrentRecord failing_env demo_state).2 = LittleFS demo_state /\
  storedRecordCount (storage (saveCurrentRecord failing_env demo_state).2) = 1 /\
  newestRecordIndex (storage (saveCurrentRecord failing_env demo_state).2) = 0 /\
  let after := (saveCurrentRecord demo_env
                  (saveCurrentRecord failing_env demo_state).2).2 in
  storedRecordCount (storage after) = 2 /\
  LittleFS after !! METADATA_FILE = Some (le_bytes 4 2 ++ le_bytes 4 0 ++ le_bytes 4 1) /\
  LittleFS after !! record_filename 0 = None /\
  (loadRecord 0 after).1 = false.
Proof. vm_compute. repeat split. Qed.


Lemma uniform_4984us_ok : timestamps_ok uniform_4984us.
Proof. apply (uniform_stamps_ok 4984); [lia|reflexivity]. Qed.

Lemma uniform_4984us_sum : sum_deltas uniform_4984us = 5098632.
Proof. vm_compute. reflexivity. Qed.

(** C7, counterexample: for uniform deltas of 4984 microseconds the stored
    frequency is the binary32 number with bits 1128834141.  It is below
    [(N - 1)] divided by the sum of the deltas in seconds, and it is not
    the binary32 number nearest to that quotient: the next one is
    nearer. *)
Lemma sampling_frequency_differs_from_quotient :
  timestamps_ok uniform_4984us /\
  sum_deltas uniform_4984us = 5098632 /\
  Binary32.bits (loop_samplingFrequency uniform_4984us) = 1128834141 /\
  (Binary32.value (loop_samplingFrequency uniform_4984us)
   ?= 1023 / (5098632 / 1000000))%Q = Lt /\
  (1023 / (5098632 / 1000000)
   ?= Binary32.value (Binary32.of_bits 1128834142))%Q = Lt /\
  (Binary32.value (Binary32.of_bits 1128834142) - 1023 / (5098632 / 1000000)
   ?= 1023 / (5098632 / 1000000)
      - Binary32.value (loop_samplingFrequency uniform_4984us))%Q = Lt.
Proof.
  split; [apply (uniform_stamps_ok 4984); [lia|reflexivity]|].
  vm_compute. repeat split.
Qed.


Lemma demo_state_ring : ring_inv (storage demo_state).
Proof.
  unfold ring_inv, demo_state, MAX_RECORDS. cbn [storage storedRecordCount oldestRecordIndex newestRecordIndex].
  repeat split; first [lia | reflexivity].
Qed.

Lemma demo_later_store :
  LittleFS demo_later = LittleFS (saveCurrentRecord demo_env demo_state).2 /\
  storage demo_later = storage (saveCurrentRecord demo_env demo_state).2.
Proof.
  unfold demo_later. cbn [LittleFS storage]. unfold demo_saved. split; reflexivity.
Qed.

Lemma save_then_load_roundtrip_witness :
  (saveCurrentRecord demo_env demo_state).1 = true /\
  (loadRecord (storedRecordCount (storage demo_later) - 1) demo_later).1 = true /\
  live (loadRecord (storedRecordCount (storage demo_later) - 1) demo_later).2
  = live demo_state.
Proof.
  pose proof (saveCurrentRecord_success demo_env demo_state eq_refl eq_refl) as Hs.
  cbv zeta in Hs. destruct Hs as (_ & Hst & _).
  destruct demo_later_store as [Hfs Hstore].
  assert (Hready : storageReady (storage demo_later) = true).
  { rewrite Hstore, Hst. reflexivity. }
  assert (Hcount : storedRecordCount (storage demo_later)
                   = storedRecordCount (storage (saveCurrentRecord demo_env demo_state).2))
    by (rewrite Hstore; reflexivity).
  assert (Hold : oldestRecordIndex (storage demo_later)
                 = oldestRecordIndex (storage (saveCurrentRecord demo_env demo_state).2))
    by (rewrite Hstore; reflexivity).
  pose proof (save_then_load_roundtrip demo_env demo_state demo_later
                eq_refl demo_state_ring (demo_live_wf 0) eq_refl
                Hfs Hready Hcount Hold) as H.
  cbv zeta in H. destruct H as (H1 & H2 & H3 & _).
  split; [exact H1|]. split; [exact H2|exact H3].
Defined.

Lemma append_ring_eviction_witness :
  let ers := map (fun k => (demo_env, demo_live k)) (seqZ 0 (MAX_RECORDS + 1)) in
  storedRecordCount (storage (append_all ers demo_state)) = MAX_RECORDS /\
  exists second, ers !! 1%nat = Some second /\
    (loadRecord 0 (append_all ers demo_state)).1 = true /\
    live (loadRecord 0 (append_all ers demo_state)).2 = second.2.
Proof.
  intros ers.
  apply (proj2 append_ring_eviction ers demo_state).
  - unfold ers. rewrite length_map, length_seqZ. reflexivity.
  - apply Forall_forall. intros er Her name.
    apply list_elem_of_fmap in Her as (k & -> & _). reflexivity.
  - apply Forall_forall. intros er Her.
    apply list_elem_of_fmap in Her as (k & -> & _). apply demo_live_wf.
  - reflexivity.
  - reflexivity.
  - reflexivity.
  - reflexivity.
Defined.

Lemma measured_sampling_frequency_witness :
  (loop_dt uniform_5ms = sum_deltas uniform_5ms /\
   0 <= sum_deltas uniform_5ms < 2 ^ 31) /\
  loop_samplingFrequency uniform_5ms = (flit 200 : Binary32.t) /\
  ((inject_Z ((SAMPLES - 1) * 1000000) / inject_Z (sum_deltas uniform_4984us)
    * (1 - (1 # 4000000))
    <= Binary32.value (loop_samplingFrequency uniform_4984us))%Q /\
   (Binary32.value (loop_samplingFrequency uniform_4984us)
    <= inject_Z ((SAMPLES - 1) * 1000000) / inject_Z (sum_deltas uniform_4984us)
       * (1 + (1 # 4000000)))%Q).
Proof.
  split; [|split].
  - apply (proj1 measured_sampling_frequency uniform_5ms uniform_5ms_ok).
  - apply (proj1 (proj2 (proj2 measured_sampling_frequency))
             uniform_5ms uniform_5ms_ok).
    exact uniform_5ms_deltas.
  - apply (proj1 (proj2 (proj2 (proj2 measured_sampling_frequency)))
             uniform_4984us uniform_4984us_ok).
    rewrite uniform_4984us_sum. reflexivity.
Defined.




Lemma parseAndSetTime_validation_witness :
  (parseAndSetTime "2025-13-15 14:30:00" demo_state).1 = false /\
  Rtc (parseAndSetTime "2025-13-15 14:30:00" demo_state).2 = Rtc demo_state.
Proof.
  apply (proj1 (parseAndSetTime_validation "2025-13-15 14:30:00" demo_state)).
  right. vm_compute. intros (_ & (_ & H) & _). apply H. reflexivity.
Defined.

Lemma export_leaves_last_record_in_buffers_witness :
  let s' := exportAllRecordsSerial demo_saved in
  accXvec (live s') = accXvec (demo_live 0) /\ accYvec (live s') = accYvec (demo_live 0) /\
  accZvec (live s') = accZvec (demo_live 0) /\ vRealX (live s') = vRealX (demo_live 0) /\
  vRealY (live s') = vRealY (demo_live 0) /\ vRealZ (live s') = vRealZ (demo_live 0) /\
  samplingFrequency (live s') = samplingFreq (save_meta (millis demo_env) (demo_live 0)) /\
  (xM (live s'), yM (live s'), zM (live s'))
  = meta_peak (save_meta (millis demo_env) (demo_live 0)) /\
  currentViewRecord (storage s') = -1 /\
  currentRecordTime (live s') = currentRecordTime (live demo_saved).
Proof.
  pose proof (saveCurrentRecord_success demo_env demo_state eq_refl eq_refl) as H.
  cbv zeta in H. destruct H as (_ & Hst & _ & _ & Hfile & _).
  pose proof (save_meta_head (millis demo_env) (demo_live 0)) as (Hts & Hrtc & _).
  apply (export_leaves_last_record_in_buffers demo_saved
           (save_meta (millis demo_env) (demo_live 0)) (demo_live 0)).
  - unfold demo_saved. rewrite Hst. reflexivity.
  - unfold demo_saved. rewrite Hst. reflexivity.
  - unfold demo_saved. rewrite Hst. vm_compute. discriminate.
  - unfold demo_saved. rewrite Hst. exact Hfile.
  - rewrite Hts. vm_compute. split; [discriminate|reflexivity].
  - rewrite Hrtc. exact (proj1 (demo_live_wf 0)).
  - exact (demo_live_wf 0).
Defined.
